(** * shp build run: the pod-event handler of [pkg/shp/cmd/build/run.go]

    A shallow embedding of [RunCommand] (its [tailLogs], [onEvent], [stop]
    and [Run] methods) and of [pkg/shp/params/params.go], together with the
    parts of Go's [fmt], [strconv] and [unicode/utf8] packages that decide
    which bytes the handler writes.

    Go strings are byte strings: they are embedded as [string], one [ascii]
    per byte.  A nil [error] is [None]. *)

From Stdlib Require Import ZArith NArith Ascii String Lia.
From stdpp Require Import gmap strings list fin_maps.

Local Open Scope string_scope.
Local Open Scope list_scope.

(** ** Bytes *)

Definition byte_in (lo hi : N) (c : ascii) : bool :=
  ((lo <=? N_of_ascii c) && (N_of_ascii c <=? hi))%N.

Definition LF : string := String "010"%char "".
Definition DQUOTE : string := String "034"%char "".

(** [lowerhex[n]] of strconv, for a nibble. *)
Definition lowerhex (n : N) : ascii :=
  nth (N.to_nat n) (list_ascii_of_string "0123456789abcdef") "0"%char.

(** ** unicode/utf8 *)
Module utf8.

(** U+FFFD as [utf8.AppendRune] writes it. *)
Definition RuneError : string :=
  String "239"%char (String "191"%char (String "189"%char "")).

(** Continuation bytes [locb..hicb]. *)
Definition cont (c : ascii) : bool := byte_in 128 191 c.

(** The [first] table joined with [acceptRanges]: for a leading byte, the
    length of the sequence it opens and the range accepted for the second
    byte; [None] for the bytes marked [xx]. *)
Definition first (c : ascii) : option (nat * N * N) :=
  let b := N_of_ascii c in
  if (b <? 128)%N then Some (1%nat, 0%N, 0%N)
  else if (b <? 194)%N then None
  else if (b <? 224)%N then Some (2%nat, 128%N, 191%N)
  else if (b =? 224)%N then Some (3%nat, 160%N, 191%N)
  else if (b =? 237)%N then Some (3%nat, 128%N, 159%N)
  else if (b <? 240)%N then Some (3%nat, 128%N, 191%N)
  else if (b =? 240)%N then Some (4%nat, 144%N, 191%N)
  else if (b <? 244)%N then Some (4%nat, 128%N, 191%N)
  else if (b =? 244)%N then Some (4%nat, 128%N, 143%N)
  else None.

(** [utf8.DecodeRuneInString] on a non-empty string [String c rest]: the
    number of bytes of the rune that starts at [c], and whether they are a
    valid encoding.  An invalid or truncated sequence is one byte wide. *)
Definition DecodeRuneInString (c : ascii) (rest : string) : nat * bool :=
  match first c with
  | None => (1%nat, false)
  | Some (1%nat, _, _) => (1%nat, true)
  | Some (sz, lo, hi) =>
      match rest with
      | String c1 rest1 =>
          if negb (byte_in lo hi c1) then (1%nat, false)
          else if (sz <=? 2)%nat then (2%nat, true)
          else match rest1 with
               | String c2 rest2 =>
                   if negb (cont c2) then (1%nat, false)
                   else if (sz <=? 3)%nat then (3%nat, true)
                   else match rest2 with
                        | String c3 _ =>
                            if cont c3 then (4%nat, true) else (1%nat, false)
                        | EmptyString => (1%nat, false)
                        end
               | EmptyString => (1%nat, false)
               end
      | EmptyString => (1%nat, false)
      end
  end.

End utf8.

(** [s[:n]] and [s[n:]] on byte strings. *)
Fixpoint take_bytes (n : nat) (s : string) : string :=
  match n, s with
  | S k, String c rest => String c (take_bytes k rest)
  | _, _ => EmptyString
  end.

Fixpoint drop_bytes (n : nat) (s : string) : string :=
  match n, s with
  | S k, String _ rest => drop_bytes k rest
  | _, _ => s
  end.

(** ** strconv *)
Module strconv.

(** [strconv.Quote].  Exact on every string of ASCII bytes and on bytes that
    are not valid UTF-8.  A valid multi-byte rune is copied through, which
    is what Go does for the printable ones; the Unicode tables that single
    out the unprintable runes above U+007F are not part of this
    development. *)
Definition escape1 (c : ascii) : string :=
  let b := N_of_ascii c in
  if (b =? 34)%N then String "\"%char DQUOTE
  else if (b =? 92)%N then "\\"
  else if byte_in 32 126 c then String c ""
  else if (b =? 7)%N then "\a"
  else if (b =? 8)%N then "\b"
  else if (b =? 12)%N then "\f"
  else if (b =? 10)%N then "\n"
  else if (b =? 13)%N then "\r"
  else if (b =? 9)%N then "\t"
  else if (b =? 11)%N then "\v"
  else String "\"%char (String "x"%char
         (String (lowerhex (b / 16)) (String (lowerhex (b mod 16)) ""))).

Fixpoint appendQuoted (skip : nat) (s : string) : string :=
  match s with
  | EmptyString => EmptyString
  | String c rest =>
      match skip with
      | S k => String c (appendQuoted k rest)
      | O =>
          if (N_of_ascii c <? 128)%N then escape1 c +:+ appendQuoted 0 rest
          else match utf8.DecodeRuneInString c rest with
               | (width, true) => String c (appendQuoted (width - 1) rest)
               | (_, false) => escape1 c +:+ appendQuoted 0 rest
               end
      end
  end.

Definition Quote (s : string) : string :=
  DQUOTE +:+ appendQuoted 0 s +:+ DQUOTE.

End strconv.

(** ** fmt: a format with no operands

    [fmt.Fprintf(w, format)], [fmt.Sprintf(format)] and [fmt.Errorf(format)]
    all run the printer's [doPrintf(format, a)] with [len(a) = 0]; [doPrintf] below
    is that loop.  With no operand no verb can print one: text outside the
    directives is copied, [%%] gives a percent sign, and every other
    directive is replaced by one of fmt's error markers. *)
Module fmt.

Definition percentBangString := "%!".
Definition missingString := "(MISSING)".
Definition badIndexString := "(BADINDEX)".
Definition noVerbString := "%!(NOVERB)".
Definition badWidthString := "%!(BADWIDTH)".
Definition badPrecString := "%!(BADPREC)".

Definition is_flag (c : ascii) : bool :=
  match c with
  | "#"%char | "0"%char | "+"%char | "-"%char | " "%char => true
  | _ => false
  end.

Fixpoint skip_flags (s : string) : string :=
  match s with
  | String c rest => if is_flag c then skip_flags rest else s
  | EmptyString => s
  end.

Definition tooLarge (x : N) : bool := (1000000 <? x)%N.

(** [parsenum]: the digits at the head of [s].  [None] is the overflow
    return, which abandons the window it was reading. *)
Fixpoint parsenum_loop (num : N) (isnum : bool) (s : string)
  : option (N * bool * string) :=
  match s with
  | String c rest =>
      if byte_in 48 57 c then
        if tooLarge num then None
        else parsenum_loop (num * 10 + (N_of_ascii c - 48)) true rest
      else Some (num, isnum, s)
  | EmptyString => Some (num, isnum, s)
  end.

Definition parsenum (s : string) : N * bool * string :=
  match parsenum_loop 0 false s with
  | Some r => r
  | None => (0%N, false, EmptyString)
  end.

(** The text before the first [']'] of [s], when there is one. *)
Fixpoint before_bracket (s : string) : option string :=
  match s with
  | EmptyString => None
  | String c rest =>
      if Ascii.eqb c "]"%char then Some EmptyString
      else option_map (String c) (before_bracket rest)
  end.

(** [parseArgNumber] on [String "[" s]: the index, the width of the bracketed
    text and whether it is a number. *)
Definition parseArgNumber (s : string) : Z * nat * bool :=
  if (String.length s <? 2)%nat then (0%Z, 1%nat, false)
  else match before_bracket s with
       | None => (0%Z, 1%nat, false)
       | Some inner =>
           let wid := (String.length inner + 2)%nat in
           match parsenum inner with
           | (width, true, EmptyString) => ((Z.of_N width - 1)%Z, wid, true)
           | _ => (0%Z, wid, false)
           end
       end.

(** [argNumber] with [numArgs = 0]: no index is in range, so a bracket
    always clears [goodArgNum]; the result is the rest of the format,
    [found] and [goodArgNum]. *)
Definition argNumber (s : string) (goodArgNum : bool) : string * bool * bool :=
  match s with
  | String c rest =>
      if Ascii.eqb c "["%char then
        let '(index, wid, ok) := parseArgNumber rest in
        (drop_bytes wid s, ok, false)
      else (s, false, goodArgNum)
  | EmptyString => (s, false, goodArgNum)
  end.

(** The width of a directive: a star finds no operand and writes the
    BADWIDTH marker; digits are read, and digits after an index clear
    [goodArgNum].  Returns what is written, the rest, [afterIndex] and
    [goodArgNum]. *)
Definition width (s : string) (afterIndex good : bool)
  : string * string * bool * bool :=
  let digits :=
    let '(_, widPresent, rest) := parsenum s in
    (EmptyString, rest, afterIndex, good && negb (afterIndex && widPresent)) in
  match s with
  | String c rest =>
      if Ascii.eqb c "*"%char then (badWidthString, rest, false, good)
      else digits
  | EmptyString => digits
  end.

(** The precision of a directive, after a dot. *)
Definition precision (s : string) (afterIndex good : bool)
  : string * string * bool * bool :=
  match s with
  | String c rest =>
      if Ascii.eqb c "."%char then
        let good := good && negb afterIndex in
        let '(rest, afterIndex, good) := argNumber rest good in
        let digits :=
          let '(_, _, rest') := parsenum rest in
          (EmptyString, rest', afterIndex, good) in
        match rest with
        | String c' rest' =>
            if Ascii.eqb c' "*"%char then (badPrecString, rest', false, good)
            else digits
        | EmptyString => digits
        end
      else (EmptyString, s, afterIndex, good)
  | EmptyString => (EmptyString, s, afterIndex, good)
  end.

(** The verb of a directive: a percent sign is written as it is; any other
    verb finds no operand. *)
Definition verb (s : string) (good : bool) : string * string :=
  match s with
  | EmptyString => (noVerbString, EmptyString)
  | String c rest =>
      let '(size, valid) := utf8.DecodeRuneInString c rest in
      let rune := if valid then take_bytes size s else utf8.RuneError in
      let rest := drop_bytes size s in
      if Ascii.eqb c "%"%char then ("%", rest)
      else if negb good
           then (percentBangString +:+ rune +:+ badIndexString, rest)
           else (percentBangString +:+ rune +:+ missingString, rest)
  end.

(** One directive: [s] is the format after a ['%'].  Returns what is
    written and the rest of the format. *)
Definition directive (s : string) : string * string :=
  let s := skip_flags s in
  let '(s, afterIndex, good) := argNumber s true in
  let '(out1, s, afterIndex, good) := width s afterIndex good in
  let '(out2, s, afterIndex, good) := precision s afterIndex good in
  let '(s, afterIndex, good) :=
    if afterIndex then (s, afterIndex, good) else argNumber s good in
  let '(out3, s) := verb s good in
  (out1 +:+ out2 +:+ out3, s).

(** The format loop.  [skip] counts the bytes of the format that the
    directive being processed has already consumed. *)
Fixpoint doPrintf_from (skip : nat) (format : string) : string :=
  match format with
  | EmptyString => EmptyString
  | String c rest =>
      match skip with
      | S k => doPrintf_from k rest
      | O =>
          if Ascii.eqb c "%"%char then
            let '(out, rest') := directive rest in
            out +:+ doPrintf_from (String.length rest - String.length rest') rest
          else String c (doPrintf_from 0 rest)
      end
  end.

Definition doPrintf (format : string) : string := doPrintf_from 0 format.

(** A format without ['%'] is written as it is. *)
Fixpoint percent_free (s : string) : bool :=
  match s with
  | EmptyString => true
  | String c rest => negb (Ascii.eqb c "%"%char) && percent_free rest
  end.

End fmt.

(** ** API objects

    Only the fields that run.go reads or writes are kept. *)

(** A Go [error], observed through its [Error()] text. *)
Record error := errorString { Error : string }.

(** [fmt.Errorf(format)] with no operand. *)
Definition fmt_Errorf (format : string) : error :=
  errorString (fmt.doPrintf format).

Module metav1.

Record ObjectMeta := {
  Name : string;
  GenerateName : string;
  Namespace : string;
  DeletionTimestamp : option Z;   (* *metav1.Time, seconds; nil is None *)
}.

Record ListOptions := { LabelSelector : string }.

End metav1.

Module corev1.

Definition PodPending := "Pending".
Definition PodRunning := "Running".
Definition PodSucceeded := "Succeeded".
Definition PodFailed := "Failed".
Definition PodUnknown := "Unknown".

Definition ContainersReady := "ContainersReady".
Definition PodInitialized := "Initialized".

Definition ConditionTrue := "True".
Definition ConditionFalse := "False".
Definition ConditionUnknown := "Unknown".

Record Container := { Name : string }.

Record PodCondition := {
  Type_ : string;      (* PodConditionType *)
  Status : string;     (* ConditionStatus *)
  Message : string;
}.

Record PodSpec := {
  InitContainers : list Container;
  Containers : list Container;
}.

Record PodStatus := {
  Phase : string;      (* PodPhase *)
  Conditions : list PodCondition;
}.

Record Pod := {
  ObjectMeta : metav1.ObjectMeta;
  Spec : PodSpec;
  Status_ : PodStatus;
}.

Definition GetName (pod : Pod) : string := metav1.Name (ObjectMeta pod).
Definition GetNamespace (pod : Pod) : string := metav1.Namespace (ObjectMeta pod).

End corev1.

(** The BuildRun of [github.com/shipwright-io/build/pkg/apis/build/v1alpha1]. *)
Module buildv1alpha1.

Definition BuildRunStateCancel := "BuildRunCanceled".

Record BuildRunSpec := {
  State : option string;   (* *BuildRunRequestedState *)
}.

Record BuildRun := {
  ObjectMeta : metav1.ObjectMeta;
  Spec : BuildRunSpec;
}.

Definition GetName (br : BuildRun) : string := metav1.Name (ObjectMeta br).

(** [br.Spec.State != nil && *br.Spec.State == BuildRunStateCancel] *)
Definition IsCanceled (br : BuildRun) : bool :=
  match State (Spec br) with
  | Some st => String.eqb st BuildRunStateCancel
  | None => false
  end.

End buildv1alpha1.

(** ** Clientsets

    A Go interface value is nil, or holds a pointer that may itself be nil. *)
Inductive Interface (T : Type) : Type :=
| nil_interface
| pointer (p : option T).
Arguments nil_interface {T}.
Arguments pointer {T} p.

(** [v != nil] on an interface value. *)
Definition not_nil {T} (v : Interface T) : bool :=
  match v with nil_interface => false | pointer _ => true end.

(** The Shipwright clientset, through the two BuildRun calls of run.go.
    Each gives the pair [(result, err)] that the Go call returns. *)
Record ShpClientset := {
  BuildRuns_Get :
    string -> string -> buildv1alpha1.BuildRun * option error;
  BuildRuns_Create :
    string -> buildv1alpha1.BuildRun -> buildv1alpha1.BuildRun * option error;
}.

(** The Kubernetes clientset is only handed on to the pod watcher. *)
Record KubeClientset := { kube_id : nat }.

(** A [*rest.Config]. *)
Record Config := { config_id : nat }.

(** What lies outside the two source files: the kubeconfig loader, the
    clientset constructors, [flags.SanitizeBuildRunSpec], the pod watcher's
    constructor and the value its blocking [Start] returns. *)
Record World := {
  ClientConfig : Config + error;
  kubernetes_NewForConfig : Config -> KubeClientset + error;
  buildclientset_NewForConfig : Config -> ShpClientset + error;
  flags_SanitizeBuildRunSpec :
    buildv1alpha1.BuildRunSpec -> buildv1alpha1.BuildRunSpec;
  reactor_NewPodWatcher :
    Interface KubeClientset -> metav1.ListOptions -> string -> option error;
  pw_Start_result : option error;
}.

(** ** Effects and outcomes *)

(** Calls on the collaborators ([r.logTail], [r.pw], [r.ioStreams.Out], the
    API server), in the order they are made. *)
Inductive effect :=
| time_Sleep (nanoseconds : Z)
| logTail_Start (ns podName containerName : string)
| logTail_Stop
| pw_Stop
| Out (bytes : string)
| Create_BuildRun (ns : string) (br : buildv1alpha1.BuildRun)
| NewPodWatcher (listOpts : metav1.ListOptions) (ns : string)
| pw_WithOnPodModifiedFn
| pw_Start.

(** A call returns, waits on a mutex that is held, or panics. *)
Inductive outcome (A : Type) : Type :=
| Returned (a : A)
| Blocked
| Panicked.
Arguments Returned {A} a.
Arguments Blocked {A}.
Arguments Panicked {A}.

(** State passing with a log of effects. *)
Definition M (S A : Type) : Type := S -> outcome A * S * list effect.

Definition ret {S A} (a : A) : M S A := fun s => (Returned a, s, []).

Definition bind {S A B} (c : M S A) (k : A -> M S B) : M S B :=
  fun s =>
    match c s with
    | (Returned a, s', tr) =>
        let '(o, s'', tr') := k a s' in (o, s'', tr ++ tr')
    | (Blocked, s', tr) => (Blocked, s', tr)
    | (Panicked, s', tr) => (Panicked, s', tr)
    end.

Notation "'let*' x ':=' c 'in' k" := (bind c (fun x => k))
  (at level 10, x pattern, c at level 100, k at level 200).

Definition emit {S} (e : effect) : M S unit := fun s => (Returned tt, s, [e]).
Definition get {S} : M S S := fun s => (Returned s, s, []).
Definition modify {S} (f : S -> S) : M S unit := fun s => (Returned tt, f s, []).
Definition panic {S A} : M S A := fun s => (Panicked, s, []).

Fixpoint for_range {S A} (l : list A) (body : A -> M S unit) : M S unit :=
  match l with
  | [] => ret tt
  | x :: rest => let* _ := body x in for_range rest body
  end.

(** [defer d] before [body]: [d] runs when [body] returns or panics. *)
Definition defer {S A} (d : M S unit) (body : M S A) : M S A :=
  fun s =>
    match body s with
    | (Returned a, s', tr) =>
        match d s' with
        | (Returned _, s'', tr') => (Returned a, s'', tr ++ tr')
        | (Blocked, s'', tr') => (Blocked, s'', tr ++ tr')
        | (Panicked, s'', tr') => (Panicked, s'', tr ++ tr')
        end
    | (Blocked, s', tr) => (Blocked, s', tr)
    | (Panicked, s', tr) =>
        let '(_, s'', tr') := d s' in (Panicked, s'', tr ++ tr')
    end.

(** ** pkg/shp/params/params.go *)
Module params.

(** [client] (the dynamic client) is not used by [build run]. *)
Record Params := {
  clientset : Interface KubeClientset;
  shpClientset : Interface ShpClientset;
  namespace : string;
}.

Definition set_clientset (v : Interface KubeClientset) (p : Params) : Params :=
  {| clientset := v; shpClientset := shpClientset p; namespace := namespace p |}.

Definition set_shpClientset (v : Interface ShpClientset) (p : Params) : Params :=
  {| clientset := clientset p; shpClientset := v; namespace := namespace p |}.

(** [ClientSet]: the cached clientset when the field is not nil; otherwise
    load the configuration and build one.  [p.clientset, err = NewForConfig]
    stores the constructor's pointer, a nil one when it fails, in the
    interface field. *)
Definition ClientSet (w : World)
  : M Params (Interface KubeClientset * option error) :=
  let* p := get in
  if not_nil (clientset p) then ret (clientset p, None)
  else
    match ClientConfig w with
    | inr err => ret (nil_interface, Some err)
    | inl config =>
        match kubernetes_NewForConfig w config with
        | inr err =>
            let* _ := modify (set_clientset (pointer None)) in
            ret (nil_interface, Some err)
        | inl c =>
            let* _ := modify (set_clientset (pointer (Some c))) in
            ret (pointer (Some c), None)
        end
    end.

(** [ShipwrightClientSet], of the same shape. *)
Definition ShipwrightClientSet (w : World)
  : M Params (Interface ShpClientset * option error) :=
  let* p := get in
  if not_nil (shpClientset p) then ret (shpClientset p, None)
  else
    match ClientConfig w with
    | inr err => ret (nil_interface, Some err)
    | inl config =>
        match buildclientset_NewForConfig w config with
        | inr err =>
            let* _ := modify (set_shpClientset (pointer None)) in
            ret (nil_interface, Some err)
        | inl c =>
            let* _ := modify (set_shpClientset (pointer (Some c))) in
            ret (pointer (Some c), None)
        end
    end.

Definition Namespace (p : Params) : string := namespace p.

End params.

(** ** pkg/shp/cmd/build/run.go *)

(** [RunCommand].  [cmd], [ioStreams], [pw] and [logTail] point to
    collaborators; the calls made on them are [effect]s.  [watchLock] is
    [true] while the mutex is held. *)
Record RunCommand := {
  tailLogsStarted : gmap string bool;
  buildName : string;
  buildRunName : string;
  buildRunSpec : buildv1alpha1.BuildRunSpec;
  shpClientset : Interface ShpClientset;
  follow : bool;
  watchLock : bool;
}.

Definition set_tailLogsStarted (m : gmap string bool) (r : RunCommand) :=
  {| tailLogsStarted := m; buildName := buildName r;
     buildRunName := buildRunName r; buildRunSpec := buildRunSpec r;
     shpClientset := shpClientset r; follow := follow r;
     watchLock := watchLock r |}.

Definition set_buildRunName (n : string) (r : RunCommand) :=
  {| tailLogsStarted := tailLogsStarted r; buildName := buildName r;
     buildRunName := n; buildRunSpec := buildRunSpec r;
     shpClientset := shpClientset r; follow := follow r;
     watchLock := watchLock r |}.

Definition set_shpClientset (c : Interface ShpClientset) (r : RunCommand) :=
  {| tailLogsStarted := tailLogsStarted r; buildName := buildName r;
     buildRunName := buildRunName r; buildRunSpec := buildRunSpec r;
     shpClientset := c; follow := follow r;
     watchLock := watchLock r |}.

Definition set_watchLock (b : bool) (r : RunCommand) :=
  {| tailLogsStarted := tailLogsStarted r; buildName := buildName r;
     buildRunName := buildRunName r; buildRunSpec := buildRunSpec r;
     shpClientset := shpClientset r; follow := follow r;
     watchLock := b |}.

(** [sync.Mutex]: [Lock] waits while the mutex is held; [Unlock] of a free
    mutex is a fatal error. *)
Definition Lock : M RunCommand unit :=
  fun r => if watchLock r then (Blocked, r, [])
           else (Returned tt, set_watchLock true r, []).

Definition Unlock : M RunCommand unit :=
  fun r => if watchLock r then (Returned tt, set_watchLock false r, [])
           else (Panicked, r, []).

(** A method call through a clientset interface dereferences its pointer. *)
Definition deref {S T} (v : Interface T) : M S T :=
  match v with
  | pointer (Some c) => ret c
  | _ => panic
  end.

Definition time_Second : Z := 1000000000.

(** [tailLogs] (lines 84-93). *)
Definition tailLogs (pod : corev1.Pod) : M RunCommand unit :=
  let containers :=
    corev1.InitContainers (corev1.Spec pod) ++ corev1.Containers (corev1.Spec pod) in
  for_range containers (fun container =>
    let* r := get in
    match tailLogsStarted r !! corev1.Name container with
    | Some _ => ret tt
    | None =>
        let* _ := modify (fun r =>
          set_tailLogsStarted
            (<[corev1.Name container := true]> (tailLogsStarted r)) r) in
        emit (logTail_Start (corev1.GetNamespace pod) (corev1.GetName pod)
                (corev1.Name container))
    end).

(** [stop] (lines 142-145). *)
Definition stop : M RunCommand unit :=
  let* _ := emit logTail_Stop in
  emit pw_Stop.

(** The loop of lines 130-136: the error of the first condition of type
    Initialized or ContainersReady whose status is Unknown. *)
Fixpoint range_Conditions (conditions : list corev1.PodCondition) : option error :=
  match conditions with
  | [] => None
  | c :: rest =>
      if String.eqb (corev1.Type_ c) corev1.PodInitialized
         || String.eqb (corev1.Type_ c) corev1.ContainersReady
      then
        if String.eqb (corev1.Status c) corev1.ConditionUnknown
        then Some (fmt_Errorf (corev1.Message c))
        else range_Conditions rest
      else range_Conditions rest
  end.

Definition is_nil {A} (o : option A) : bool :=
  match o with None => true | Some _ => false end.

(** The [switch] of lines 109-119: the message, and the error to return.
    The four [fmt.Sprintf] calls and the [fmt.Errorf] call have a constant
    format whose only verb is [%s], with a string operand: the operand is
    copied into the text. *)
Definition failed_reason (pod : corev1.Pod) (br : buildv1alpha1.BuildRun)
    (err : option error) : string * option error :=
  if is_nil err && buildv1alpha1.IsCanceled br then
    ("BuildRun '" +:+ buildv1alpha1.GetName br +:+ "' has been canceled." +:+ LF, err)
  else if is_nil err
          && negb (is_nil (metav1.DeletionTimestamp (buildv1alpha1.ObjectMeta br))) then
    ("BuildRun '" +:+ buildv1alpha1.GetName br +:+ "' has been deleted." +:+ LF, err)
  else if negb (is_nil (metav1.DeletionTimestamp (corev1.ObjectMeta pod))) then
    ("Pod '" +:+ corev1.GetName pod +:+ "' has been deleted." +:+ LF, err)
  else
    ("Pod '" +:+ corev1.GetName pod +:+ "' has failed!" +:+ LF,
     Some (errorString ("build pod '" +:+ corev1.GetName pod +:+ "' has failed"))).

(** [onEvent] (lines 96-139).  Line 121 passes [msg] to [fmt.Fprintf] as the
    format, with no operand; lines 125 and 128 pass a constant format and
    string operands, [%s] copying its operand and [%q] quoting it. *)
Definition onEvent (pod : corev1.Pod) : M RunCommand (option error) :=
  let* _ := Lock in
  defer Unlock (
    let phase := corev1.Phase (corev1.Status_ pod) in
    if String.eqb phase corev1.PodRunning then
      let* _ := emit (time_Sleep (3 * time_Second)) in
      let* _ := tailLogs pod in
      ret None
    else if String.eqb phase corev1.PodFailed then
      let* r := get in
      let* c := deref (shpClientset r) in
      let '(br, err) :=
        BuildRuns_Get c (metav1.Namespace (corev1.ObjectMeta pod)) (buildRunName r) in
      let '(msg, err) := failed_reason pod br err in
      let* _ := emit (Out (fmt.doPrintf msg)) in
      let* _ := stop in
      ret err
    else if String.eqb phase corev1.PodSucceeded then
      let* _ := emit (Out ("Pod '" +:+ corev1.GetName pod +:+ "' has succeeded!" +:+ LF)) in
      let* _ := stop in
      ret None
    else
      let* _ := emit (Out ("Pod '" +:+ corev1.GetName pod +:+ "' is in state "
                             +:+ strconv.Quote phase +:+ "..." +:+ LF)) in
      ret (range_Conditions (corev1.Conditions (corev1.Status_ pod)))).

(** [Run] works on the command and on the [Params] it is given. *)
Definition on_self {A} (c : M RunCommand A) : M (params.Params * RunCommand) A :=
  fun '(p, r) => let '(o, r', tr) := c r in (o, (p, r'), tr).

Definition on_params {A} (c : M params.Params A) : M (params.Params * RunCommand) A :=
  fun '(p, r) => let '(o, p', tr) := c p in (o, (p', r), tr).

(** [Run] (lines 148-204).  [r.pw.Start()] blocks while the watcher delivers
    events; it is recorded as the effect [pw_Start] and returns what the
    world says.  The command that [Run] gives back is the one it hands to
    the watcher when it calls [Start]: the events delivered during the
    watch act on it through [onEvent] (see [deliver]) and are not part of
    [Run].  The stores to [r.ioStreams] (line 175) and [r.pw] (line 193) set
    pointers to collaborators, which the record does not hold. *)
Definition Run (w : World) : M (params.Params * RunCommand) (option error) :=
  let* _ := on_self Lock in
  let* (_, r) := get in
  let br :=
    {| buildv1alpha1.ObjectMeta :=
         {| metav1.Name := ""; metav1.GenerateName := buildName r +:+ "-";
            metav1.Namespace := ""; metav1.DeletionTimestamp := None |};
       buildv1alpha1.Spec := flags_SanitizeBuildRunSpec w (buildRunSpec r) |} in
  let* (clientset, err) := on_params (params.ShipwrightClientSet w) in
  match err with
  | Some e => ret (Some e)
  | None =>
  let* c := deref clientset in
  let* (p, _) := get in
  let* _ := emit (Create_BuildRun (params.Namespace p) br) in
  let '(br, err) := BuildRuns_Create c (params.Namespace p) br in
  match err with
  | Some e => ret (Some e)
  | None =>
  if negb (follow r) then
    let* _ := emit (Out ("BuildRun created " +:+ strconv.Quote (buildv1alpha1.GetName br)
                           +:+ " for build " +:+ strconv.Quote (buildName r) +:+ LF)) in
    ret None
  else
  let* (kclientset, err) := on_params (params.ClientSet w) in
  match err with
  | Some e => ret (Some e)
  | None =>
  let* _ := on_self (modify (set_buildRunName (buildv1alpha1.GetName br))) in
  let* (shp, err) := on_params (params.ShipwrightClientSet w) in
  let* _ := on_self (modify (set_shpClientset shp)) in
  match err with
  | Some e => ret (Some e)
  | None =>
  let listOpts :=
    {| metav1.LabelSelector :=
         "build.shipwright.io/name=" +:+ buildName r
           +:+ ",buildrun.shipwright.io/name=" +:+ buildv1alpha1.GetName br |} in
  let* _ := emit (NewPodWatcher listOpts (params.Namespace p)) in
  match reactor_NewPodWatcher w kclientset listOpts (params.Namespace p) with
  | Some e => ret (Some e)
  | None =>
  let* _ := emit pw_WithOnPodModifiedFn in
  let* _ := on_self Unlock in
  let* _ := emit pw_Start in
  ret (pw_Start_result w)
  end end end end end.

(** The command that [runCmd] builds (lines 213-218). *)
Definition runCmd (spec : buildv1alpha1.BuildRunSpec) : RunCommand :=
  {| tailLogsStarted := ∅; buildName := ""; buildRunName := "";
     buildRunSpec := spec; shpClientset := nil_interface; follow := false;
     watchLock := false |}.

(** ** A monitoring session

    The watcher hands the pods it observes to [onEvent], and the mutex
    serialises the calls: a session is the list of pods in the order the
    handler takes them.  Delivery ends with the list, or with a call that
    does not return. *)
Fixpoint deliver (pods : list corev1.Pod) (r : RunCommand)
  : RunCommand * list effect :=
  match pods with
  | [] => (r, [])
  | pod :: rest =>
      match onEvent pod r with
      | (Returned _, r', tr) =>
          let '(r'', tr') := deliver rest r' in (r'', tr ++ tr')
      | (_, r', tr) => (r', tr)
      end
  end.

(** The container names of the tail starts in a log of effects. *)
Fixpoint started (tr : list effect) : list string :=
  match tr with
  | [] => []
  | logTail_Start _ _ name :: rest => name :: started rest
  | _ :: rest => started rest
  end.

(** Names in the order given, without those in [seen] and without repeats:
    the tail starts that the specification asks of [tailLogs]. *)
Fixpoint unseen (seen : gset string) (names : list string) : list string :=
  match names with
  | [] => []
  | n :: rest =>
      if decide (n ∈ seen) then unseen seen rest
      else n :: unseen ({[n]} ∪ seen) rest
  end.

Definition container_names (pod : corev1.Pod) : list string :=
  map corev1.Name (corev1.InitContainers (corev1.Spec pod))
  ++ map corev1.Name (corev1.Containers (corev1.Spec pod)).

(** The registry after the names have been walked. *)
Definition register (m : gmap string bool) (names : list string) : gmap string bool :=
  foldl (fun m n => match m !! n with Some _ => m | None => <[n := true]> m end)
        m names.

(** The terminal reason as the specification orders it: canceled, then
    deleted, then the generic failure. *)
Inductive reason := Canceled | Deleted | PodFailure.

Definition has_marker (meta : metav1.ObjectMeta) : bool :=
  negb (is_nil (metav1.DeletionTimestamp meta)).

Definition terminal_reason (pod : corev1.Pod) (br : buildv1alpha1.BuildRun)
    (err : option error) : reason :=
  if is_nil err && buildv1alpha1.IsCanceled br then Canceled
  else if (is_nil err && has_marker (buildv1alpha1.ObjectMeta br))
          || has_marker (corev1.ObjectMeta pod) then Deleted
  else PodFailure.

(** The message templates of the output sink. *)
Definition canceled_message (kind name : string) : string :=
  kind +:+ " '" +:+ name +:+ "' has been canceled." +:+ LF.
Definition deleted_message (kind name : string) : string :=
  kind +:+ " '" +:+ name +:+ "' has been deleted." +:+ LF.
Definition failed_message (name : string) : string :=
  "Pod '" +:+ name +:+ "' has failed!" +:+ LF.
Definition succeeded_message (name : string) : string :=
  "Pod '" +:+ name +:+ "' has succeeded!" +:+ LF.
Definition state_message (name phase : string) : string :=
  "Pod '" +:+ name +:+ "' is in state " +:+ DQUOTE +:+ phase +:+ DQUOTE +:+ "..." +:+ LF.

(** The first condition, in list order, of type Initialized or
    ContainersReady whose status is Unknown. *)
Definition signals_failure (c : corev1.PodCondition) : bool :=
  (String.eqb (corev1.Type_ c) "Initialized"
   || String.eqb (corev1.Type_ c) "ContainersReady")
  && String.eqb (corev1.Status c) "Unknown".

Definition first_failure (conditions : list corev1.PodCondition)
  : option corev1.PodCondition :=
  List.find signals_failure conditions.

(** ** Sample objects *)

Definition meta_of (name : string) (deleted : option Z) : metav1.ObjectMeta :=
  {| metav1.Name := name; metav1.GenerateName := ""; metav1.Namespace := "default";
     metav1.DeletionTimestamp := deleted |}.

Definition pod_of (name phase : string) (inits containers : list string)
    (conditions : list corev1.PodCondition) (deleted : option Z) : corev1.Pod :=
  {| corev1.ObjectMeta := meta_of name deleted;
     corev1.Spec := {| corev1.InitContainers := map corev1.Build_Container inits;
                       corev1.Containers := map corev1.Build_Container containers |};
     corev1.Status_ := {| corev1.Phase := phase; corev1.Conditions := conditions |} |}.

Definition buildrun_of (name : string) (state : option string) (deleted : option Z)
  : buildv1alpha1.BuildRun :=
  {| buildv1alpha1.ObjectMeta := meta_of name deleted;
     buildv1alpha1.Spec := {| buildv1alpha1.State := state |} |}.

(** A clientset whose [Get] answers [(br, err)] and whose [Create] names the
    run after its [GenerateName]. *)
Definition client_of (br : buildv1alpha1.BuildRun) (err : option error) : ShpClientset :=
  {| BuildRuns_Get := fun _ _ => (br, err);
     BuildRuns_Create := fun _ b =>
       (buildrun_of (metav1.GenerateName (buildv1alpha1.ObjectMeta b) +:+ "x7k2p")
          None None, None) |}.

(** The command of [runCmd] once [Run] has stored the run's name and the
    clientset. *)
Definition session_of (c : ShpClientset) : RunCommand :=
  set_shpClientset (pointer (Some c))
    (set_buildRunName "app-x7k2p" (runCmd {| buildv1alpha1.State := None |})).

Definition world_of (config : Config + error) (watcher : option error) : World :=
  {| ClientConfig := config;
     kubernetes_NewForConfig := fun _ => inl {| kube_id := 0 |};
     buildclientset_NewForConfig := fun _ => inl (client_of (buildrun_of "app-x7k2p" None None) None);
     flags_SanitizeBuildRunSpec := fun spec => spec;
     reactor_NewPodWatcher := fun _ _ _ => watcher;
     pw_Start_result := None |}.

(** The command of [runCmd] after [Complete] and the flags. *)
Definition command_of (name : string) (following : bool) : RunCommand :=
  {| tailLogsStarted := ∅; buildName := name; buildRunName := "";
     buildRunSpec := {| buildv1alpha1.State := None |};
     shpClientset := nil_interface; follow := following; watchLock := false |}.

Definition fresh_params : params.Params :=
  {| params.clientset := nil_interface; params.shpClientset := nil_interface;
     params.namespace := "default" |}.

(** ** The rest of run.go and params.go *)

Definition set_buildName (n : string) (r : RunCommand) :=
  {| tailLogsStarted := tailLogsStarted r; buildName := n;
     buildRunName := buildRunName r; buildRunSpec := buildRunSpec r;
     shpClientset := shpClientset r; follow := follow r;
     watchLock := watchLock r |}.

(** [Complete] (lines 56-72), as far as the fields of the record go.  The
    argument is [r.Cmd().Flags().Set], applied to [flags.BuildrefNameFlag]:
    it takes the value and gives the error of the flag set.  Two stores are
    outside the record: line 68 sets [r.logTail], a pointer to a
    collaborator, and the flag set of line 71 writes the build-ref name of
    the spec, which is not among the fields kept in [BuildRunSpec]. *)
Definition Complete (w : World) (Flags_Set : string -> option error)
    (args : list string) : M (params.Params * RunCommand) (option error) :=
  match args with
  | [name] =>
      let* _ := on_self (modify (set_buildName name)) in
      let* (clientset, err) := on_params (params.ClientSet w) in
      match err with
      | Some e => ret (Some e)
      | None =>
          let* (_, r) := get in
          ret (Flags_Set (buildName r))
      end
  | _ => ret (Some (errorString "Build name is not informed"))
  end.

(** [Validate] (lines 75-80). *)
Definition Validate (r : RunCommand) : option error :=
  if String.eqb (buildName r) "" then Some (fmt_Errorf "name is not informed")
  else None.

(** [NewParams] (lines 102-107): every field but [configFlags] has its zero
    value. *)
Definition NewParams : params.Params :=
  {| params.clientset := nil_interface; params.shpClientset := nil_interface;
     params.namespace := "" |}.

(** [Params] with its [client] field, for [Client]. *)
Record DynamicClient := { dynamic_id : nat }.

Record ParamsWithClient := {
  client : Interface DynamicClient;
  fields : params.Params;
}.

Definition set_client (v : Interface DynamicClient) (p : ParamsWithClient) :=
  {| client := v; fields := fields p |}.

Definition set_namespace (ns : string) (p : ParamsWithClient) :=
  {| client := client p;
     fields := {| params.clientset := params.clientset (fields p);
                  params.shpClientset := params.shpClientset (fields p);
                  params.namespace := ns |} |}.

(** What [Client] asks of the kubeconfig loader besides [ClientConfig]: the
    namespace and error of [clientConfig.Namespace()], and the pair that
    [dynamic.NewForConfig] returns. *)
Record Loader := {
  Namespace_result : string * option error;
  dynamic_NewForConfig : Config -> Interface DynamicClient * option error;
}.

(** [errors.Wrap(err, message)] of github.com/pkg/errors: the text is the
    message, a colon and the text of the cause. *)
Definition errors_Wrap (err : error) (message : string) : error :=
  errorString (message +:+ ": " +:+ Error err).

(** [Client] (lines 32-55). *)
Definition Client (w : World) (l : Loader)
  : M ParamsWithClient (Interface DynamicClient * option error) :=
  let* p := get in
  if not_nil (client p) then ret (client p, None)
  else
    match ClientConfig w with
    | inr err => ret (nil_interface, Some err)
    | inl config =>
        let '(ns, err) := Namespace_result l in
        let* _ := modify (set_namespace ns) in
        match err with
        | Some e => ret (nil_interface, Some e)
        | None =>
            let '(c, err) := dynamic_NewForConfig l config in
            let* _ := modify (set_client c) in
            match err with
            | Some e =>
                ret (nil_interface, Some (errors_Wrap e "could not create Dynamic client"))
            | None =>
                let* p := get in
                ret (client p, None)
            end
        end
    end.

(** The number of [pw.Stop] calls in a log of effects. *)
Fixpoint stops (tr : list effect) : nat :=
  match tr with
  | [] => 0
  | pw_Stop :: rest => S (stops rest)
  | _ :: rest => stops rest
  end.

(** The phases on which the handler shuts the session down. *)
Definition terminal (pod : corev1.Pod) : bool :=
  String.eqb (corev1.Phase (corev1.Status_ pod)) corev1.PodFailed
  || String.eqb (corev1.Phase (corev1.Status_ pod)) corev1.PodSucceeded.

(** Printable ASCII text without a double quote or a backslash. *)
Fixpoint plain_text (s : string) : bool :=
  match s with
  | EmptyString => true
  | String c rest =>
      byte_in 32 126 c
      && negb (N_of_ascii c =? 34)%N && negb (N_of_ascii c =? 92)%N
      && plain_text rest
  end.

(** A loader for the examples. *)
Definition loader_of (ns : string) (err : option error)
    (made : Interface DynamicClient * option error) : Loader :=
  {| Namespace_result := (ns, err); dynamic_NewForConfig := fun _ => made |}.

(** The create requests in a log of effects. *)
Fixpoint requests (tr : list effect) : list (string * buildv1alpha1.BuildRun) :=
  match tr with
  | [] => []
  | Create_BuildRun ns br :: rest => (ns, br) :: requests rest
  | _ :: rest => requests rest
  end.

(** The request that [Run] builds at lines 153-159. *)
Definition request_of (w : World) (r : RunCommand) : buildv1alpha1.BuildRun :=
  {| buildv1alpha1.ObjectMeta :=
       {| metav1.Name := ""; metav1.GenerateName := buildName r +:+ "-";
          metav1.Namespace := ""; metav1.DeletionTimestamp := None |};
     buildv1alpha1.Spec := flags_SanitizeBuildRunSpec w (buildRunSpec r) |}.

(** * Properties *)

#[local] Set Warnings "-clear-no-such-hyp".

(** ** fmt *)

Lemma append_cons (x : ascii) (a b : string) :
  String x a +:+ b = String x (a +:+ b).
Proof. reflexivity. Qed.

Lemma append_nil (b : string) : "" +:+ b = b.
Proof. reflexivity. Qed.

Lemma append_assoc (a b c : string) : (a +:+ b) +:+ c = a +:+ (b +:+ c).
Proof.
  induction a as [|x a IH]; [reflexivity |].
  rewrite !append_cons. now rewrite IH.
Qed.

Lemma percent_free_app (a b : string) :
  fmt.percent_free (a +:+ b) = fmt.percent_free a && fmt.percent_free b.
Proof.
  induction a as [|x a IH]; [reflexivity |].
  rewrite append_cons. simpl. rewrite IH. now rewrite andb_assoc.
Qed.

(** A format without a percent sign is written unchanged. *)
Lemma doPrintf_percent_free (format : string) :
  fmt.percent_free format = true -> fmt.doPrintf format = format.
Proof.
  unfold fmt.doPrintf.
  induction format as [|c rest IH]; simpl; [reflexivity |].
  intros H. apply andb_true_iff in H as [Hc Hrest].
  destruct (Ascii.eqb c "%"); [discriminate |].
  now rewrite IH.
Qed.

(** A format that ends in a lone percent sign gains the NOVERB marker. *)
Lemma doPrintf_trailing_percent (text : string) :
  fmt.percent_free text = true ->
  fmt.doPrintf (text +:+ "%") = text +:+ "%!(NOVERB)".
Proof.
  unfold fmt.doPrintf.
  induction text as [|c rest IH]; [reflexivity |].
  rewrite !append_cons. simpl.
  intros H. apply andb_true_iff in H as [Hc Hrest].
  destruct (Ascii.eqb c "%"); [discriminate |].
  now rewrite IH.
Qed.

(** The examples of the package documentation and of its tests. *)
Example doPrintf_missing : fmt.doPrintf "hi%d" = "hi%!d(MISSING)".
Proof. reflexivity. Qed.

Example doPrintf_noverb : fmt.doPrintf "%-1" = "%!(NOVERB)".
Proof. reflexivity. Qed.

Example doPrintf_percent : fmt.doPrintf "100%% of %s" = "100% of %!s(MISSING)".
Proof. reflexivity. Qed.

Example doPrintf_badindex : fmt.doPrintf "%.[2]d|%[1]" = "%!d(BADINDEX)|%!(NOVERB)".
Proof. reflexivity. Qed.

Example doPrintf_star : fmt.doPrintf "%*s|%.*s" = "%!(BADWIDTH)%!s(MISSING)|%!(BADPREC)%!s(MISSING)".
Proof. reflexivity. Qed.

(** *** The loop reads the format from left to right

    Each stage of a directive leaves a suffix of what it was given, so the
    byte count with which [doPrintf_from] resumes is the length of the
    directive, and [doPrintf] obeys the equations of the loop. *)

Definition suffix_of (rest s : string) : Prop := exists pre, s = pre +:+ rest.

Lemma suffix_of_refl (s : string) : suffix_of s s.
Proof. now exists "". Qed.

Lemma suffix_of_trans (a b c : string) :
  suffix_of a b -> suffix_of b c -> suffix_of a c.
Proof. intros [p ->] [q ->]. exists (q +:+ p). now rewrite append_assoc. Qed.

Lemma suffix_of_cons (x : ascii) (rest s : string) :
  suffix_of rest s -> suffix_of rest (String x s).
Proof. intros [p ->]. now exists (String x p). Qed.

Lemma suffix_of_empty (s : string) : suffix_of "" s.
Proof.
  exists s. induction s as [|x s IH]; [reflexivity |].
  rewrite append_cons. now rewrite <- IH.
Qed.

Lemma skip_flags_suffix (s : string) : suffix_of (fmt.skip_flags s) s.
Proof.
  induction s as [|x s IH]; simpl; [apply suffix_of_refl |].
  destruct (fmt.is_flag x); [now apply suffix_of_cons | apply suffix_of_refl].
Qed.

Lemma drop_bytes_suffix (n : nat) : forall s, suffix_of (drop_bytes n s) s.
Proof.
  induction n as [|n IH]; intros [|x s]; simpl; try apply suffix_of_refl.
  apply suffix_of_cons, IH.
Qed.

Lemma parsenum_loop_suffix (s : string) :
  forall num isnum r, fmt.parsenum_loop num isnum s = Some r -> suffix_of r.2 s.
Proof.
  induction s as [|x s IH]; intros num isnum r; simpl.
  - intros H. injection H as <-. apply suffix_of_refl.
  - destruct (byte_in 48 57 x).
    + destruct (fmt.tooLarge num); [discriminate |].
      intros H. apply suffix_of_cons. eapply IH, H.
    + intros H. injection H as <-. apply suffix_of_refl.
Qed.

Lemma parsenum_suffix (s : string) : suffix_of (fmt.parsenum s).2 s.
Proof.
  unfold fmt.parsenum.
  destruct (fmt.parsenum_loop 0 false s) as [r|] eqn:H.
  - eapply parsenum_loop_suffix, H.
  - apply suffix_of_empty.
Qed.

Lemma argNumber_suffix (s : string) (good : bool) :
  suffix_of (fmt.argNumber s good).1.1 s.
Proof.
  unfold fmt.argNumber. destruct s as [|x s]; [apply suffix_of_refl |].
  destruct (Ascii.eqb x "["); [| apply suffix_of_refl].
  destruct (fmt.parseArgNumber s) as [[index wid] ok]. simpl.
  apply drop_bytes_suffix.
Qed.

Lemma width_suffix (s : string) (afterIndex good : bool) :
  suffix_of (fmt.width s afterIndex good).1.1.2 s.
Proof.
  pose proof (parsenum_suffix s) as Hd.
  unfold fmt.width. destruct (fmt.parsenum s) as [[n present] rest].
  destruct s as [|x s]; [exact Hd |].
  destruct (Ascii.eqb x "*"); [| exact Hd].
  simpl. apply suffix_of_cons, suffix_of_refl.
Qed.

Lemma precision_suffix (s : string) (afterIndex good : bool) :
  suffix_of (fmt.precision s afterIndex good).1.1.2 s.
Proof.
  unfold fmt.precision. destruct s as [|x s]; [apply suffix_of_refl |].
  destruct (Ascii.eqb x "."); [| apply suffix_of_refl].
  apply suffix_of_cons.
  pose proof (argNumber_suffix s (good && negb afterIndex)) as Ha.
  destruct (fmt.argNumber s (good && negb afterIndex)) as [[rest ai] g].
  simpl in Ha.
  pose proof (parsenum_suffix rest) as Hd.
  destruct (fmt.parsenum rest) as [[n present] rest'']. simpl in Hd.
  destruct rest as [|y rest'].
  - simpl. eapply suffix_of_trans; [exact Hd | exact Ha].
  - destruct (Ascii.eqb y "*"); simpl.
    + eapply suffix_of_trans; [| exact Ha]. apply suffix_of_cons, suffix_of_refl.
    + eapply suffix_of_trans; [exact Hd | exact Ha].
Qed.

Lemma verb_suffix (s : string) (good : bool) : suffix_of (fmt.verb s good).2 s.
Proof.
  unfold fmt.verb. destruct s as [|x s]; [apply suffix_of_refl |].
  destruct (utf8.DecodeRuneInString x s) as [size valid].
  destruct (Ascii.eqb x "%"); [apply drop_bytes_suffix |].
  destruct (negb good); apply drop_bytes_suffix.
Qed.

Lemma directive_suffix (s : string) : suffix_of (fmt.directive s).2 s.
Proof.
  unfold fmt.directive.
  pose proof (skip_flags_suffix s) as H0.
  pose proof (argNumber_suffix (fmt.skip_flags s) true) as H1.
  destruct (fmt.argNumber (fmt.skip_flags s) true) as [[s1 a1] g1]. simpl in H1.
  pose proof (width_suffix s1 a1 g1) as H2.
  destruct (fmt.width s1 a1 g1) as [[[out1 s2] a2] g2]. simpl in H2.
  pose proof (precision_suffix s2 a2 g2) as H3.
  destruct (fmt.precision s2 a2 g2) as [[[out2 s3] a3] g3]. simpl in H3.
  assert (H4 : suffix_of (if a3 then (s3, a3, g3) else fmt.argNumber s3 g3).1.1 s3).
  { destruct a3; [apply suffix_of_refl | apply argNumber_suffix]. }
  destruct (if a3 then (s3, a3, g3) else fmt.argNumber s3 g3) as [[s4 a4] g4].
  simpl in H4.
  pose proof (verb_suffix s4 g4) as H5.
  destruct (fmt.verb s4 g4) as [out3 s5]. simpl in *.
  apply (suffix_of_trans _ s4); [exact H5 |].
  apply (suffix_of_trans _ s3); [exact H4 |].
  apply (suffix_of_trans _ s2); [exact H3 |].
  apply (suffix_of_trans _ s1); [exact H2 |].
  apply (suffix_of_trans _ (fmt.skip_flags s)); [exact H1 | exact H0].
Qed.

Lemma length_append (a b : string) :
  String.length (a +:+ b) = String.length a + String.length b.
Proof.
  induction a as [|x a IH]; [reflexivity |].
  rewrite append_cons. simpl. now rewrite IH.
Qed.

Lemma doPrintf_from_skip (pre rest : string) :
  fmt.doPrintf_from (String.length pre) (pre +:+ rest) = fmt.doPrintf_from 0 rest.
Proof.
  induction pre as [|x pre IH]; [reflexivity |].
  rewrite append_cons. simpl. destruct (pre +:+ rest) eqn:E; exact IH.
Qed.

(** The two equations of the loop: a byte that is not a percent sign is
    copied; a percent sign opens a directive, and the loop goes on with what
    the directive has left. *)
Lemma doPrintf_literal (c : ascii) (format : string) :
  Ascii.eqb c "%" = false ->
  fmt.doPrintf (String c format) = String c (fmt.doPrintf format).
Proof. intros H. unfold fmt.doPrintf. simpl. now rewrite H. Qed.

Lemma doPrintf_directive (format : string) :
  fmt.doPrintf (String "%" format)
  = (fmt.directive format).1 +:+ fmt.doPrintf (fmt.directive format).2.
Proof.
  unfold fmt.doPrintf. simpl.
  destruct (directive_suffix format) as [pre Hpre].
  destruct (fmt.directive format) as [out rest]. simpl in *.
  f_equal. subst format. rewrite length_append.
  replace (String.length pre + String.length rest - String.length rest)
    with (String.length pre) by lia.
  apply doPrintf_from_skip.
Qed.

(** ** The record and the mutex *)

Lemma set_tailLogsStarted_id (r : RunCommand) :
  set_tailLogsStarted (tailLogsStarted r) r = r.
Proof. now destruct r. Qed.

Lemma set_tailLogsStarted_twice (m m' : gmap string bool) (r : RunCommand) :
  set_tailLogsStarted m (set_tailLogsStarted m' r) = set_tailLogsStarted m r.
Proof. reflexivity. Qed.

Lemma unlock_lock (r : RunCommand) :
  watchLock r = false -> set_watchLock false (set_watchLock true r) = r.
Proof. destruct r; simpl; intros ->; reflexivity. Qed.

Lemma unlock_lock_registry (m : gmap string bool) (r : RunCommand) :
  watchLock r = false ->
  set_watchLock false (set_tailLogsStarted m (set_watchLock true r))
  = set_tailLogsStarted m r.
Proof. destruct r; simpl; intros ->; reflexivity. Qed.

(** ** tailLogs *)

Lemma register_cons (m : gmap string bool) (n : string) (names : list string) :
  register m (n :: names)
  = register (match m !! n with Some _ => m | None => <[n := true]> m end) names.
Proof. reflexivity. Qed.

Lemma tailLogs_eq (pod : corev1.Pod) (r : RunCommand) :
  tailLogs pod r
  = (Returned tt,
     set_tailLogsStarted (register (tailLogsStarted r) (container_names pod)) r,
     map (logTail_Start (corev1.GetNamespace pod) (corev1.GetName pod))
         (unseen (dom (tailLogsStarted r)) (container_names pod))).
Proof.
  unfold tailLogs, container_names. rewrite <- map_app.
  generalize (corev1.InitContainers (corev1.Spec pod)
              ++ corev1.Containers (corev1.Spec pod)).
  intros l. revert r.
  induction l as [|c l IH]; intros r.
  - simpl. unfold ret. now rewrite set_tailLogsStarted_id.
  - simpl for_range. unfold bind at 1. unfold bind at 1. unfold get at 1.
    rewrite map_cons, register_cons. simpl unseen.
    destruct (tailLogsStarted r !! corev1.Name c) as [b|] eqn:Hlook.
    + unfold ret at 1. rewrite IH. simpl.
      destruct (decide (corev1.Name c ∈ dom (tailLogsStarted r))) as [_|Hn].
      * reflexivity.
      * exfalso. apply Hn. apply elem_of_dom. eauto.
    + unfold bind at 1. unfold modify at 1. unfold emit at 1.
      rewrite IH. simpl.
      destruct (decide (corev1.Name c ∈ dom (tailLogsStarted r))) as [Hin|_].
      * apply elem_of_dom in Hin as [b Hb]. congruence.
      * now rewrite dom_insert_L.
Qed.

Lemma unseen_elem (names : list string) :
  forall (seen : gset string) (n : string),
    n ∈ unseen seen names <-> n ∈ names /\ n ∉ seen.
Proof.
  induction names as [|x names IH]; intros seen n; simpl.
  - split; [intros H; inversion H | intros [H _]; inversion H].
  - destruct (decide (x ∈ seen)) as [Hx|Hx].
    + rewrite IH, elem_of_cons. split; [tauto |].
      intros [[->|H] Hn]; [contradiction | tauto].
    + rewrite !elem_of_cons, IH, elem_of_union, elem_of_singleton.
      split.
      * intros [->|[H Hn]]; [tauto |]. split; [tauto |]. intros Hs. apply Hn. now right.
      * intros [[->|H] Hn]; [now left |].
        destruct (decide (n = x)) as [->|Hne]; [now left |].
        right. split; [exact H |]. intros [E|Hs]; [contradiction | contradiction].
Qed.

Lemma unseen_NoDup (names : list string) :
  forall seen : gset string, NoDup (unseen seen names).
Proof.
  induction names as [|x names IH]; intros seen; simpl.
  - constructor.
  - destruct (decide (x ∈ seen)); [apply IH |].
    constructor; [| apply IH].
    rewrite unseen_elem. intros [_ Hx]. apply Hx, elem_of_union_l.
    now apply elem_of_singleton.
Qed.

Lemma unseen_sublist (names : list string) :
  forall seen : gset string, sublist (unseen seen names) names.
Proof.
  induction names as [|x names IH]; intros seen; simpl.
  - constructor.
  - destruct (decide (x ∈ seen)).
    + apply sublist_cons, IH.
    + apply sublist_skip, IH.
Qed.

Lemma unseen_all_seen (names : list string) (seen : gset string) :
  (forall n, n ∈ names -> n ∈ seen) -> unseen seen names = [].
Proof.
  induction names as [|x names IH]; intros H; simpl; [reflexivity |].
  destruct (decide (x ∈ seen)) as [_|Hx].
  - apply IH. intros n Hn. apply H. now right.
  - exfalso. apply Hx, H. now left.
Qed.

(** With nothing seen and no repeated name, every name is kept. *)
Lemma unseen_fresh (names : list string) :
  forall seen : gset string,
    NoDup names -> (forall n, n ∈ names -> n ∉ seen) -> unseen seen names = names.
Proof.
  induction names as [|x names IH]; intros seen Hnd Hfresh; simpl; [reflexivity |].
  apply NoDup_cons in Hnd as [Hx Hnd].
  destruct (decide (x ∈ seen)) as [Hin|_].
  - exfalso. apply (Hfresh x); [now left | exact Hin].
  - f_equal. apply IH; [exact Hnd |].
    intros n Hn Hs. apply elem_of_union in Hs as [Hs|Hs].
    + apply elem_of_singleton in Hs as ->. contradiction.
    + apply (Hfresh n); [now right | exact Hs].
Qed.

Lemma dom_register (names : list string) :
  forall m : gmap string bool,
    dom (register m names) = dom m ∪ list_to_set (unseen (dom m) names).
Proof.
  induction names as [|x names IH]; intros m.
  - simpl. set_solver.
  - rewrite register_cons. simpl unseen.
    destruct (m !! x) as [b|] eqn:Hx.
    + rewrite IH.
      destruct (decide (x ∈ dom m)) as [_|Hn]; [reflexivity |].
      exfalso. apply Hn, elem_of_dom. eauto.
    + rewrite IH, dom_insert_L.
      destruct (decide (x ∈ dom m)) as [Hin|_].
      * apply elem_of_dom in Hin as [b Hb]. congruence.
      * simpl. set_solver.
Qed.

Lemma register_subseteq (names : list string) :
  forall m : gmap string bool, m ⊆ register m names.
Proof.
  induction names as [|x names IH]; intros m.
  - reflexivity.
  - rewrite register_cons.
    destruct (m !! x) as [b|] eqn:Hx; [apply IH |].
    transitivity (<[x := true]> m); [now apply insert_subseteq | apply IH].
Qed.

Lemma register_seen (names : list string) :
  forall m : gmap string bool,
    (forall n, n ∈ names -> n ∈ dom m) -> register m names = m.
Proof.
  induction names as [|x names IH]; intros m H; [reflexivity |].
  rewrite register_cons.
  destruct (m !! x) as [b|] eqn:Hx.
  - apply IH. intros n Hn. apply H. now right.
  - assert (Hin : x ∈ dom m) by (apply H; now left).
    apply elem_of_dom in Hin as [b Hb]. congruence.
Qed.

Lemma names_in_register (names : list string) (m : gmap string bool) (n : string) :
  n ∈ names -> n ∈ dom (register m names).
Proof.
  intros Hn. rewrite dom_register.
  destruct (decide (n ∈ dom m)) as [Hin|Hout]; [set_solver |].
  apply elem_of_union_r, elem_of_list_to_set, unseen_elem. auto.
Qed.

Lemma started_app (tr tr' : list effect) :
  started (tr ++ tr') = started tr ++ started tr'.
Proof.
  induction tr as [|e tr IH]; [reflexivity |].
  destruct e; simpl; rewrite IH; reflexivity.
Qed.

Lemma started_starts (ns podName : string) (names : list string) :
  started (map (logTail_Start ns podName) names) = names.
Proof. induction names as [|n names IH]; simpl; [reflexivity | now rewrite IH]. Qed.

(** ** onEvent, branch by branch *)

Lemma onEvent_locked (pod : corev1.Pod) (r : RunCommand) :
  watchLock r = true -> onEvent pod r = (Blocked, r, []).
Proof. intros H. unfold onEvent, bind, Lock. now rewrite H. Qed.

Ltac enter_handler H :=
  unfold onEvent; unfold bind at 1; unfold Lock at 1; rewrite H;
  unfold defer, Unlock.

Lemma onEvent_Running (pod : corev1.Pod) (r : RunCommand) :
  watchLock r = false ->
  corev1.Phase (corev1.Status_ pod) = corev1.PodRunning ->
  onEvent pod r
  = (Returned None,
     set_tailLogsStarted (register (tailLogsStarted r) (container_names pod)) r,
     time_Sleep (3 * time_Second)
       :: map (logTail_Start (corev1.GetNamespace pod) (corev1.GetName pod))
              (unseen (dom (tailLogsStarted r)) (container_names pod))).
Proof.
  intros Hlock Hphase. enter_handler Hlock. rewrite Hphase.
  change (String.eqb corev1.PodRunning corev1.PodRunning) with true.
  cbv iota. unfold bind, emit, ret. rewrite tailLogs_eq. simpl.
  rewrite unlock_lock_registry by exact Hlock.
  now rewrite !app_nil_r.
Qed.

Lemma onEvent_Failed (pod : corev1.Pod) (r : RunCommand) (c : ShpClientset)
    (br : buildv1alpha1.BuildRun) (err : option error) :
  watchLock r = false ->
  corev1.Phase (corev1.Status_ pod) = corev1.PodFailed ->
  shpClientset r = pointer (Some c) ->
  BuildRuns_Get c (metav1.Namespace (corev1.ObjectMeta pod)) (buildRunName r)
  = (br, err) ->
  onEvent pod r
  = (Returned (snd (failed_reason pod br err)), r,
     [Out (fmt.doPrintf (fst (failed_reason pod br err))); logTail_Stop; pw_Stop]).
Proof.
  intros Hlock Hphase Hc Hget.
  enter_handler Hlock. rewrite Hphase.
  change (String.eqb corev1.PodFailed corev1.PodRunning) with false.
  change (String.eqb corev1.PodFailed corev1.PodFailed) with true.
  cbv iota. unfold bind at 1. unfold get at 1. simpl shpClientset.
  rewrite Hc. unfold bind at 1. unfold deref, ret at 1.
  change (buildRunName (set_watchLock true r)) with (buildRunName r).
  rewrite Hget. destruct (failed_reason pod br err) as [msg e].
  unfold bind, emit, stop, ret. simpl.
  now rewrite unlock_lock by exact Hlock.
Qed.

Lemma onEvent_Failed_nil (pod : corev1.Pod) (r : RunCommand) :
  watchLock r = false ->
  corev1.Phase (corev1.Status_ pod) = corev1.PodFailed ->
  (forall c, shpClientset r <> pointer (Some c)) ->
  onEvent pod r = (Panicked, r, []).
Proof.
  intros Hlock Hphase Hc. enter_handler Hlock. rewrite Hphase.
  change (String.eqb corev1.PodFailed corev1.PodRunning) with false.
  change (String.eqb corev1.PodFailed corev1.PodFailed) with true.
  cbv iota. unfold bind at 1. unfold get at 1. simpl shpClientset.
  destruct (shpClientset r) as [|[c|]] eqn:E.
  - unfold bind, deref, panic. simpl. now rewrite unlock_lock.
  - now destruct (Hc c).
  - unfold bind, deref, panic. simpl. now rewrite unlock_lock.
Qed.

Lemma onEvent_Succeeded (pod : corev1.Pod) (r : RunCommand) :
  watchLock r = false ->
  corev1.Phase (corev1.Status_ pod) = corev1.PodSucceeded ->
  onEvent pod r
  = (Returned None, r,
     [Out ("Pod '" +:+ corev1.GetName pod +:+ "' has succeeded!" +:+ LF);
      logTail_Stop; pw_Stop]).
Proof.
  intros Hlock Hphase. enter_handler Hlock. rewrite Hphase.
  change (String.eqb corev1.PodSucceeded corev1.PodRunning) with false.
  change (String.eqb corev1.PodSucceeded corev1.PodFailed) with false.
  change (String.eqb corev1.PodSucceeded corev1.PodSucceeded) with true.
  cbv iota. unfold bind, emit, stop, ret. simpl.
  now rewrite unlock_lock by exact Hlock.
Qed.

Lemma onEvent_other (pod : corev1.Pod) (r : RunCommand) :
  watchLock r = false ->
  corev1.Phase (corev1.Status_ pod) <> corev1.PodRunning ->
  corev1.Phase (corev1.Status_ pod) <> corev1.PodFailed ->
  corev1.Phase (corev1.Status_ pod) <> corev1.PodSucceeded ->
  onEvent pod r
  = (Returned (range_Conditions (corev1.Conditions (corev1.Status_ pod))), r,
     [Out ("Pod '" +:+ corev1.GetName pod +:+ "' is in state "
             +:+ strconv.Quote (corev1.Phase (corev1.Status_ pod)) +:+ "..." +:+ LF)]).
Proof.
  intros Hlock H1 H2 H3. enter_handler Hlock.
  apply String.eqb_neq in H1, H2, H3. rewrite H1, H2, H3.
  unfold bind, emit, ret. simpl.
  now rewrite unlock_lock by exact Hlock.
Qed.

(** Whatever the event and the state, the names started are the unseen ones
    of some list of names, and the registry is the old one with that list
    entered; the list is empty unless the handler tails. *)
Lemma onEvent_registry (pod : corev1.Pod) (r : RunCommand) :
  exists names,
    started (onEvent pod r).2 = unseen (dom (tailLogsStarted r)) names
    /\ tailLogsStarted (onEvent pod r).1.2 = register (tailLogsStarted r) names.
Proof.
  destruct (watchLock r) eqn:Hlock.
  { exists []. now rewrite onEvent_locked. }
  destruct (String.eqb_spec (corev1.Phase (corev1.Status_ pod)) corev1.PodRunning) as [H1|H1].
  { exists (container_names pod). rewrite onEvent_Running by assumption.
    simpl. now rewrite started_starts. }
  destruct (String.eqb_spec (corev1.Phase (corev1.Status_ pod)) corev1.PodFailed) as [H2|H2].
  { exists []. destruct (shpClientset r) as [|[c|]] eqn:Hc.
    - rewrite onEvent_Failed_nil; [easy | easy | easy | congruence].
    - destruct (BuildRuns_Get c (metav1.Namespace (corev1.ObjectMeta pod)) (buildRunName r))
        as [br err] eqn:Hget.
      now rewrite (onEvent_Failed pod r c br err).
    - rewrite onEvent_Failed_nil; [easy | easy | easy | congruence]. }
  destruct (String.eqb_spec (corev1.Phase (corev1.Status_ pod)) corev1.PodSucceeded) as [H3|H3].
  { exists []. now rewrite onEvent_Succeeded. }
  exists []. now rewrite onEvent_other.
Qed.

(** The invariant of a session. *)
Lemma deliver_invariant (pods : list corev1.Pod) :
  forall r : RunCommand,
    NoDup (started (deliver pods r).2)
    /\ dom (tailLogsStarted (deliver pods r).1)
       = dom (tailLogsStarted r) ∪ list_to_set (started (deliver pods r).2)
    /\ Forall (fun n => n ∉ dom (tailLogsStarted r)) (started (deliver pods r).2)
    /\ tailLogsStarted r ⊆ tailLogsStarted (deliver pods r).1.
Proof.
  induction pods as [|pod pods IH]; intros r.
  - simpl. split; [constructor |]. split; [set_solver |].
    split; [constructor | reflexivity].
  - simpl.
    destruct (onEvent_registry pod r) as (names & Hst & Hreg).
    destruct (onEvent pod r) as [[o r1] tr1]. simpl in Hst, Hreg.
    assert (Hone :
      NoDup (started tr1)
      /\ dom (tailLogsStarted r1) = dom (tailLogsStarted r) ∪ list_to_set (started tr1)
      /\ Forall (fun n => n ∉ dom (tailLogsStarted r)) (started tr1)
      /\ tailLogsStarted r ⊆ tailLogsStarted r1).
    { rewrite Hst, Hreg. split; [apply unseen_NoDup |].
      split; [apply dom_register |]. split; [| apply register_subseteq].
      apply Forall_forall. intros n Hn. now apply unseen_elem in Hn. }
    destruct o; [| exact Hone | exact Hone].
    specialize (IH r1). destruct (deliver pods r1) as [r2 tr2]. simpl in *.
    destruct Hone as (Hnd1 & Hdom1 & Hfresh1 & Hsub1).
    destruct IH as (Hnd2 & Hdom2 & Hfresh2 & Hsub2).
    rewrite started_app. split; [| split; [| split]].
    + apply NoDup_app. split; [exact Hnd1 |]. split; [| exact Hnd2].
      intros n Hn1 Hn2. rewrite Forall_forall in Hfresh2.
      apply (Hfresh2 n Hn2). rewrite Hdom1. set_solver.
    + rewrite Hdom2, Hdom1, list_to_set_app_L. set_solver.
    + apply Forall_app. split; [exact Hfresh1 |].
      rewrite Forall_forall in Hfresh2 |- *. intros n Hn Hin.
      apply (Hfresh2 n Hn). rewrite Hdom1. set_solver.
    + now transitivity (tailLogsStarted r1).
Qed.

(** ** Run *)

Lemma Run_locked (w : World) (p : params.Params) (r : RunCommand) :
  watchLock r = true -> Run w (p, r) = (Blocked, (p, r), []).
Proof. intros H. unfold Run, bind, on_self, Lock. now rewrite H. Qed.

(** After a call that returned no error the clientset is cached, so the next
    call returns it: the return of line 183 is never taken. *)
Lemma ShipwrightClientSet_cached (w : World) (p p' : params.Params)
    (v : Interface ShpClientset) :
  params.ShipwrightClientSet w p = (Returned (v, None), p', []) ->
  params.ShipwrightClientSet w p' = (Returned (v, None), p', []).
Proof.
  unfold params.ShipwrightClientSet, bind, get, modify, ret. simpl.
  destruct (params.shpClientset p) as [|ptr] eqn:Hp; simpl.
  - destruct (ClientConfig w) as [config|err]; [| discriminate].
    destruct (buildclientset_NewForConfig w config) as [c|err]; simpl; [| discriminate].
    intros H. injection H as <- <-. reflexivity.
  - intros H. injection H as <- <-. now rewrite Hp.
Qed.

Ltac world_case H :=
  match type of H with
  | context [params.shpClientset ?p] =>
      is_var p; destruct (params.shpClientset p) as [|[?|]] eqn:?
  | context [params.clientset ?p] =>
      is_var p; destruct (params.clientset p) as [|[?|]] eqn:?
  | context [ClientConfig ?w] => destruct (ClientConfig w) eqn:?
  | context [buildclientset_NewForConfig ?w ?c] =>
      destruct (buildclientset_NewForConfig w c) eqn:?
  | context [kubernetes_NewForConfig ?w ?c] =>
      destruct (kubernetes_NewForConfig w c) eqn:?
  | context [BuildRuns_Create ?c ?ns ?b] =>
      destruct (BuildRuns_Create c ns b) as [? [?|]] eqn:?
  | context [follow ?r] => is_var r; destruct (follow r) eqn:?
  | context [reactor_NewPodWatcher ?w ?k ?l ?n] =>
      destruct (reactor_NewPodWatcher w k l n) eqn:?
  end; simpl in H; try discriminate H.

Ltac close_return :=
  repeat first
    [ reflexivity | eassumption | split
    | left; reflexivity | right; eexists; eassumption ].

(** The ways [Run] returns from a free mutex, each with its cause: the
    Shipwright clientset could not be had (line 163), the creation failed
    (line 167), follow is off (line 172), the Kubernetes clientset could not
    be had (line 178), the watcher's constructor failed (line 195), or the
    blocking [Start] returned (line 203).  Line 183 is not among them: the
    clientset that line 161 returned is cached. *)
Lemma Run_returns (w : World) (p p' : params.Params) (r r' : RunCommand)
    (e : option error) (tr : list effect) :
  watchLock r = false ->
  Run w (p, r) = (Returned e, (p', r'), tr) ->
  (exists err, e = Some err /\ tr = [] /\ watchLock r' = true
     /\ params.shpClientset p = nil_interface
     /\ (ClientConfig w = inr err
         \/ exists config, buildclientset_NewForConfig w config = inr err))
  \/ (exists err br c created, e = Some err
        /\ tr = [Create_BuildRun (params.Namespace p) br] /\ watchLock r' = true
        /\ BuildRuns_Create c (params.Namespace p) br = (created, Some err))
  \/ (exists br msg, e = None /\ follow r = false
        /\ tr = [Create_BuildRun (params.Namespace p) br; Out msg]
        /\ watchLock r' = true)
  \/ (exists err br, e = Some err /\ follow r = true
        /\ tr = [Create_BuildRun (params.Namespace p) br] /\ watchLock r' = true
        /\ params.clientset p = nil_interface
        /\ (ClientConfig w = inr err
            \/ exists config, kubernetes_NewForConfig w config = inr err))
  \/ (exists err br listOpts k, e = Some err /\ follow r = true
        /\ tr = [Create_BuildRun (params.Namespace p) br;
                 NewPodWatcher listOpts (params.Namespace p)]
        /\ watchLock r' = true
        /\ reactor_NewPodWatcher w k listOpts (params.Namespace p) = Some err)
  \/ (exists br listOpts, e = pw_Start_result w /\ follow r = true
        /\ tr = [Create_BuildRun (params.Namespace p) br;
                 NewPodWatcher listOpts (params.Namespace p);
                 pw_WithOnPodModifiedFn; pw_Start]
        /\ watchLock r' = false).
Proof.
  intros Hlock H.
  unfold Run, params.ShipwrightClientSet, params.ClientSet in H.
  unfold bind, on_self, on_params, Lock, Unlock, get, modify, emit, ret,
    deref, panic in H.
  rewrite Hlock in H. simpl in H.
  repeat world_case H.
  all: injection H as <- <- <- <-.
  all: try congruence.
  all: unfold params.Namespace.
  all: first
    [ solve [left; eexists; close_return]
    | solve [right; left; do 4 eexists; close_return]
    | solve [right; right; left; do 2 eexists; close_return]
    | solve [right; right; right; left; do 2 eexists; close_return]
    | solve [right; right; right; right; left; do 4 eexists; close_return]
    | solve [right; right; right; right; right; do 2 eexists; close_return] ].
Qed.

(** * The statements of the specification *)

(** ** Failed phase *)

(** The message of the switch is the one of the reason that the
    specification's order gives. *)
Lemma failed_reason_message (pod : corev1.Pod) (br : buildv1alpha1.BuildRun)
    (err : option error) :
  fst (failed_reason pod br err)
  = match terminal_reason pod br err with
    | Canceled => canceled_message "BuildRun" (buildv1alpha1.GetName br)
    | Deleted =>
        if is_nil err && has_marker (buildv1alpha1.ObjectMeta br)
        then deleted_message "BuildRun" (buildv1alpha1.GetName br)
        else deleted_message "Pod" (corev1.GetName pod)
    | PodFailure => failed_message (corev1.GetName pod)
    end.
Proof.
  unfold failed_reason, terminal_reason, has_marker.
  destruct (is_nil err && buildv1alpha1.IsCanceled br); [reflexivity |].
  destruct (is_nil err
            && negb (is_nil (metav1.DeletionTimestamp (buildv1alpha1.ObjectMeta br))));
    [reflexivity |].
  simpl.
  destruct (negb (is_nil (metav1.DeletionTimestamp (corev1.ObjectMeta pod))));
    reflexivity.
Qed.

(** The error of the switch: the error of the fetch, replaced by the generic
    one when the reason is the generic failure. *)
Lemma failed_reason_error (pod : corev1.Pod) (br : buildv1alpha1.BuildRun)
    (err : option error) :
  snd (failed_reason pod br err)
  = match terminal_reason pod br err with
    | PodFailure =>
        Some (errorString ("build pod '" +:+ corev1.GetName pod +:+ "' has failed"))
    | _ => err
    end.
Proof.
  unfold failed_reason, terminal_reason, has_marker.
  destruct (is_nil err && buildv1alpha1.IsCanceled br); [reflexivity |].
  destruct (is_nil err
            && negb (is_nil (metav1.DeletionTimestamp (buildv1alpha1.ObjectMeta br))));
    [reflexivity |].
  simpl.
  destruct (negb (is_nil (metav1.DeletionTimestamp (corev1.ObjectMeta pod))));
    reflexivity.
Qed.

(** On a Failed pod the reason is found in the order canceled (the
    re-fetched BuildRun is there and canceled), deleted (a deletion marker
    on the re-fetched BuildRun or on the pod), generic failure; the handler
    passes the message of that reason to [fmt.Fprintf] as its format, once,
    and then stops the log tail and the pod watcher.  What is written is
    the rendering of the message, not always the message. *)
Theorem onEvent_Failed_precedence (pod : corev1.Pod) (r : RunCommand)
    (c : ShpClientset) (br : buildv1alpha1.BuildRun) (err : option error) :
  watchLock r = false ->
  corev1.Phase (corev1.Status_ pod) = corev1.PodFailed ->
  shpClientset r = pointer (Some c) ->
  BuildRuns_Get c (metav1.Namespace (corev1.ObjectMeta pod)) (buildRunName r)
  = (br, err) ->
  exists res msg,
    onEvent pod r = (Returned res, r, [Out (fmt.doPrintf msg); logTail_Stop; pw_Stop])
    /\ msg = match terminal_reason pod br err with
             | Canceled => canceled_message "BuildRun" (buildv1alpha1.GetName br)
             | Deleted =>
                 if is_nil err && has_marker (buildv1alpha1.ObjectMeta br)
                 then deleted_message "BuildRun" (buildv1alpha1.GetName br)
                 else deleted_message "Pod" (corev1.GetName pod)
             | PodFailure => failed_message (corev1.GetName pod)
             end.
Proof.
  intros Hlock Hphase Hc Hget.
  exists (snd (failed_reason pod br err)), (fst (failed_reason pod br err)).
  split; [now apply (onEvent_Failed pod r c) | apply failed_reason_message].
Qed.

Lemma onEvent_Failed_precedence_witness :
  let pod := pod_of "app-x7k2p-pod" "Failed" [] ["step-build"] [] (Some 1700000000%Z) in
  let br := buildrun_of "app-x7k2p" (Some "BuildRunCanceled") None in
  let r := session_of (client_of br None) in
  watchLock r = false
  /\ corev1.Phase (corev1.Status_ pod) = corev1.PodFailed
  /\ terminal_reason pod br None = Canceled
  /\ exists res msg,
       onEvent pod r = (Returned res, r, [Out (fmt.doPrintf msg); logTail_Stop; pw_Stop])
       /\ msg = canceled_message "BuildRun" "app-x7k2p".
Proof.
  intros pod br r. split; [reflexivity |]. split; [reflexivity |].
  split; [reflexivity |].
  exact (onEvent_Failed_precedence pod r (client_of br None) br None
           eq_refl eq_refl eq_refl eq_refl).
Defined.

(** C1: a Failed pod whose re-fetched BuildRun is not canceled and carries a
    deletion marker, as the pod does.  The reason is found in the claimed
    order (deleted, and the BuildRun's marker before the pod's), one write
    is made and both collaborators are stopped; but at a BuildRun named
    [run%d] the bytes written are none of the messages: line 121 uses the
    message as a format. *)
Theorem onEvent_deleted_percent_name :
  let pod := pod_of "run-pod" "Failed" [] ["step-build"] [] (Some 1700000000%Z) in
  let br := buildrun_of "run%d" None (Some 1700000000%Z) in
  let r := session_of (client_of br None) in
  let written := "BuildRun 'run%!d(MISSING)' has been deleted." +:+ LF in
  terminal_reason pod br None = Deleted
  /\ onEvent pod r = (Returned None, r, [Out written; logTail_Stop; pw_Stop])
  /\ written <> canceled_message "BuildRun" "run%d"
  /\ written <> deleted_message "BuildRun" "run%d"
  /\ written <> deleted_message "Pod" "run-pod"
  /\ written <> failed_message "run-pod".
Proof.
  intros pod br r written. split; [reflexivity |]. split; [reflexivity |].
  repeat split; intros H; discriminate H.
Qed.

(** C2, as stated, fails: the re-fetch fails, the pod carries a deletion
    marker, the deleted message is written, and the handler returns the
    error of the fetch, not nil. *)
Lemma onEvent_deleted_pod_returns_fetch_error :
  let pod := pod_of "app-x7k2p-pod" "Failed" [] ["step-build"] [] (Some 1700000000%Z) in
  let br := buildrun_of "" None None in
  let err := Some (errorString "buildruns.shipwright.io not found") in
  let r := session_of (client_of br err) in
  terminal_reason pod br err = Deleted
  /\ onEvent pod r
     = (Returned (Some (errorString "buildruns.shipwright.io not found")), r,
        [Out (deleted_message "Pod" "app-x7k2p-pod"); logTail_Stop; pw_Stop])
  /\ ~ (onEvent pod r).1.1 = Returned None.
Proof.
  intros pod br err r. split; [reflexivity |]. split; [reflexivity |].
  intros H. discriminate H.
Qed.

(** C2, amended: on a Failed pod the handler returns nil exactly when the
    re-fetch succeeded and the reason is canceled or deleted; it returns a
    non-nil error exactly for the generic failure and for a failed re-fetch,
    and when the re-fetch failed and the pod's marker gave the deleted
    reason, the error returned is the one of the fetch. *)
Theorem onEvent_Failed_result (pod : corev1.Pod) (r : RunCommand)
    (c : ShpClientset) (br : buildv1alpha1.BuildRun) (err : option error) :
  watchLock r = false ->
  corev1.Phase (corev1.Status_ pod) = corev1.PodFailed ->
  shpClientset r = pointer (Some c) ->
  BuildRuns_Get c (metav1.Namespace (corev1.ObjectMeta pod)) (buildRunName r)
  = (br, err) ->
  exists res,
    (onEvent pod r).1.1 = Returned res
    /\ (res = None <-> err = None /\ terminal_reason pod br err <> PodFailure)
    /\ (res <> None <-> terminal_reason pod br err = PodFailure \/ err <> None)
    /\ (err <> None -> terminal_reason pod br err = Deleted -> res = err).
Proof.
  intros Hlock Hphase Hc Hget.
  exists (snd (failed_reason pod br err)).
  rewrite (onEvent_Failed pod r c br err) by assumption.
  split; [reflexivity |].
  rewrite failed_reason_error.
  destruct (terminal_reason pod br err); destruct err as [e|];
    intuition congruence.
Qed.

Lemma onEvent_Failed_result_witness :
  let pod := pod_of "app-x7k2p-pod" "Failed" [] ["step-build"] [] (Some 1700000000%Z) in
  let br := buildrun_of "" None None in
  let err := Some (errorString "buildruns.shipwright.io not found") in
  let r := session_of (client_of br err) in
  watchLock r = false
  /\ corev1.Phase (corev1.Status_ pod) = corev1.PodFailed
  /\ exists res,
       (onEvent pod r).1.1 = Returned res
       /\ (res = None <-> err = None /\ terminal_reason pod br err <> PodFailure)
       /\ (res <> None <-> terminal_reason pod br err = PodFailure \/ err <> None)
       /\ (err <> None -> terminal_reason pod br err = Deleted -> res = err).
Proof.
  intros pod br err r. split; [reflexivity |]. split; [reflexivity |].
  exact (onEvent_Failed_result pod r (client_of br err) br err
           eq_refl eq_refl eq_refl eq_refl).
Defined.

(** When the name has no percent sign, line 121 writes the message as it
    is. *)
Lemma canceled_message_plain (name : string) :
  fmt.percent_free name = true ->
  fmt.doPrintf (canceled_message "BuildRun" name) = canceled_message "BuildRun" name.
Proof.
  intros H. apply doPrintf_percent_free.
  unfold canceled_message. rewrite !percent_free_app, H. reflexivity.
Qed.

Lemma deleted_message_plain (kind name : string) :
  fmt.percent_free kind = true -> fmt.percent_free name = true ->
  fmt.doPrintf (deleted_message kind name) = deleted_message kind name.
Proof.
  intros Hk H. apply doPrintf_percent_free.
  unfold deleted_message. rewrite !percent_free_app, Hk, H. reflexivity.
Qed.

Lemma failed_message_plain (name : string) :
  fmt.percent_free name = true ->
  fmt.doPrintf (failed_message name) = failed_message name.
Proof.
  intros H. apply doPrintf_percent_free.
  unfold failed_message. rewrite !percent_free_app, H. reflexivity.
Qed.

(** The canceled branch for a BuildRun whose name has no percent sign: the
    canceled message, shutdown, nil. *)
Lemma onEvent_canceled_plain_name (pod : corev1.Pod) (r : RunCommand)
    (c : ShpClientset) (br : buildv1alpha1.BuildRun) :
  watchLock r = false ->
  corev1.Phase (corev1.Status_ pod) = corev1.PodFailed ->
  shpClientset r = pointer (Some c) ->
  BuildRuns_Get c (metav1.Namespace (corev1.ObjectMeta pod)) (buildRunName r)
  = (br, None) ->
  buildv1alpha1.IsCanceled br = true ->
  fmt.percent_free (buildv1alpha1.GetName br) = true ->
  onEvent pod r
  = (Returned None, r,
     [Out (canceled_message "BuildRun" (buildv1alpha1.GetName br));
      logTail_Stop; pw_Stop]).
Proof.
  intros Hlock Hphase Hc Hget Hcan Hname.
  rewrite (onEvent_Failed pod r c br None) by assumption.
  unfold failed_reason. rewrite Hcan. simpl fst. simpl snd.
  now rewrite <- (canceled_message_plain _ Hname).
Qed.

(** C4: a Failed pod whose re-fetched BuildRun is canceled.  At a BuildRun
    named [run%d] the handler stops the collaborators and returns nil, but
    the bytes it writes are not the canceled message: line 121 uses the
    message as a format. *)
Theorem onEvent_canceled_percent_name :
  let pod := pod_of "run-pod" "Failed" [] ["step-build"] [] None in
  let br := buildrun_of "run%d" (Some "BuildRunCanceled") None in
  let r := session_of (client_of br None) in
  onEvent pod r
  = (Returned None, r,
     [Out ("BuildRun 'run%!d(MISSING)' has been canceled." +:+ LF);
      logTail_Stop; pw_Stop])
  /\ "BuildRun 'run%!d(MISSING)' has been canceled." +:+ LF
     <> canceled_message "BuildRun" "run%d".
Proof.
  intros pod br r. split; [reflexivity |]. intros H. discriminate H.
Qed.

(** A Failed pod, the BuildRun re-fetched, neither canceled nor marked for
    deletion, and the pod marked: the handler passes the pod's deleted
    message to [fmt.Fprintf] as its format, stops the collaborators and
    returns nil. *)
Theorem onEvent_pod_deleted (pod : corev1.Pod) (r : RunCommand)
    (c : ShpClientset) (br : buildv1alpha1.BuildRun) :
  watchLock r = false ->
  corev1.Phase (corev1.Status_ pod) = corev1.PodFailed ->
  shpClientset r = pointer (Some c) ->
  BuildRuns_Get c (metav1.Namespace (corev1.ObjectMeta pod)) (buildRunName r)
  = (br, None) ->
  buildv1alpha1.IsCanceled br = false ->
  metav1.DeletionTimestamp (buildv1alpha1.ObjectMeta br) = None ->
  metav1.DeletionTimestamp (corev1.ObjectMeta pod) <> None ->
  onEvent pod r
  = (Returned None, r,
     [Out (fmt.doPrintf (deleted_message "Pod" (corev1.GetName pod)));
      logTail_Stop; pw_Stop]).
Proof.
  intros Hlock Hphase Hc Hget Hcan Hbr Hpod.
  rewrite (onEvent_Failed pod r c br None) by assumption.
  unfold failed_reason. rewrite Hcan, Hbr.
  destruct (metav1.DeletionTimestamp (corev1.ObjectMeta pod)) as [t|];
    [reflexivity | contradiction].
Qed.

Lemma onEvent_pod_deleted_witness :
  let pod := pod_of "app-x7k2p-pod" "Failed" [] ["step-build"] [] (Some 1700000000%Z) in
  let br := buildrun_of "app-x7k2p" None None in
  let r := session_of (client_of br None) in
  watchLock r = false
  /\ corev1.Phase (corev1.Status_ pod) = corev1.PodFailed
  /\ buildv1alpha1.IsCanceled br = false
  /\ onEvent pod r
     = (Returned None, r,
        [Out (fmt.doPrintf (deleted_message "Pod" "app-x7k2p-pod"));
         logTail_Stop; pw_Stop]).
Proof.
  intros pod br r. split; [reflexivity |]. split; [reflexivity |].
  split; [reflexivity |].
  refine (onEvent_pod_deleted pod r (client_of br None) br
            eq_refl eq_refl eq_refl eq_refl eq_refl eq_refl _).
  intros H. discriminate H.
Defined.

(** C5: a Failed pod, the BuildRun re-fetched, neither canceled nor marked
    for deletion, and the pod marked.  The handler stops the collaborators
    and returns nil, but at a pod named [run%d] the bytes it writes are not
    the deleted message: line 121 uses the message as a format. *)
Theorem onEvent_pod_deleted_percent_name :
  let pod := pod_of "run%d" "Failed" [] ["step-build"] [] (Some 1700000000%Z) in
  let br := buildrun_of "run" None None in
  let r := session_of (client_of br None) in
  buildv1alpha1.IsCanceled br = false
  /\ onEvent pod r
     = (Returned None, r,
        [Out ("Pod 'run%!d(MISSING)' has been deleted." +:+ LF); logTail_Stop; pw_Stop])
  /\ "Pod 'run%!d(MISSING)' has been deleted." +:+ LF <> deleted_message "Pod" "run%d".
Proof.
  intros pod br r. split; [reflexivity |]. split; [reflexivity |].
  intros H. discriminate H.
Qed.

(** The generic branch for a pod whose name has no percent sign: the failed
    message, shutdown, and the generic error. *)
Lemma onEvent_failed_plain_name (pod : corev1.Pod) (r : RunCommand)
    (c : ShpClientset) (br : buildv1alpha1.BuildRun) :
  watchLock r = false ->
  corev1.Phase (corev1.Status_ pod) = corev1.PodFailed ->
  shpClientset r = pointer (Some c) ->
  BuildRuns_Get c (metav1.Namespace (corev1.ObjectMeta pod)) (buildRunName r)
  = (br, None) ->
  buildv1alpha1.IsCanceled br = false ->
  metav1.DeletionTimestamp (buildv1alpha1.ObjectMeta br) = None ->
  metav1.DeletionTimestamp (corev1.ObjectMeta pod) = None ->
  fmt.percent_free (corev1.GetName pod) = true ->
  onEvent pod r
  = (Returned (Some (errorString ("build pod '" +:+ corev1.GetName pod +:+ "' has failed"))),
     r,
     [Out (failed_message (corev1.GetName pod)); logTail_Stop; pw_Stop]).
Proof.
  intros Hlock Hphase Hc Hget Hcan Hbr Hpod Hname.
  rewrite (onEvent_Failed pod r c br None) by assumption.
  unfold failed_reason. rewrite Hcan, Hbr, Hpod. simpl fst. simpl snd.
  now rewrite <- (failed_message_plain _ Hname).
Qed.

(** C6: a Failed pod with neither cancellation nor deletion.  At a pod named
    [run%d] the handler stops the collaborators and returns a non-nil error,
    but the bytes it writes are not the failed message. *)
Theorem onEvent_failed_percent_name :
  let pod := pod_of "run%d" "Failed" [] ["step-build"] [] None in
  let br := buildrun_of "run" None None in
  let r := session_of (client_of br None) in
  onEvent pod r
  = (Returned (Some (errorString "build pod 'run%d' has failed")), r,
     [Out ("Pod 'run%!d(MISSING)' has failed!" +:+ LF); logTail_Stop; pw_Stop])
  /\ "Pod 'run%!d(MISSING)' has failed!" +:+ LF <> failed_message "run%d".
Proof.
  intros pod br r. split; [reflexivity |]. intros H. discriminate H.
Qed.

(** ** Succeeded phase *)

(** C8: on a Succeeded pod the handler writes exactly the succeeded message
    with the pod's name, stops the log tail and then the pod watcher, and
    returns nil. *)
Theorem onEvent_Succeeded_message (pod : corev1.Pod) (r : RunCommand) :
  watchLock r = false ->
  corev1.Phase (corev1.Status_ pod) = corev1.PodSucceeded ->
  onEvent pod r
  = (Returned None, r,
     [Out (succeeded_message (corev1.GetName pod)); logTail_Stop; pw_Stop]).
Proof. intros Hlock Hphase. now apply onEvent_Succeeded. Qed.

Lemma onEvent_Succeeded_message_witness :
  let pod := pod_of "app-x7k2p-pod" "Succeeded" [] ["step-build"] [] None in
  let r := session_of (client_of (buildrun_of "app-x7k2p" None None) None) in
  watchLock r = false
  /\ corev1.Phase (corev1.Status_ pod) = corev1.PodSucceeded
  /\ onEvent pod r
     = (Returned None, r,
        [Out ("Pod 'app-x7k2p-pod' has succeeded!" +:+ LF); logTail_Stop; pw_Stop]).
Proof.
  intros pod r. split; [reflexivity |]. split; [reflexivity |].
  exact (onEvent_Succeeded_message pod r eq_refl eq_refl).
Defined.

(** ** The other phases *)

(** The loop returns the error made from the message of the first condition
    that signals a failure, and nil when there is none. *)
Lemma range_Conditions_first (conditions : list corev1.PodCondition) :
  range_Conditions conditions
  = option_map (fun c => fmt_Errorf (corev1.Message c)) (first_failure conditions).
Proof.
  unfold first_failure.
  induction conditions as [|c rest IH]; [reflexivity |].
  simpl. unfold signals_failure at 1.
  change corev1.PodInitialized with "Initialized".
  change corev1.ContainersReady with "ContainersReady".
  change corev1.ConditionUnknown with "Unknown".
  destruct (String.eqb (corev1.Type_ c) "Initialized"
            || String.eqb (corev1.Type_ c) "ContainersReady"); simpl; [| exact IH].
  destruct (String.eqb (corev1.Status c) "Unknown"); [reflexivity | exact IH].
Qed.

(** A message without a percent sign is the text of the error. *)
Lemma fmt_Errorf_plain (message : string) :
  fmt.percent_free message = true -> Error (fmt_Errorf message) = message.
Proof. intros H. simpl. now apply doPrintf_percent_free. Qed.

(** The quoted phase of the informational line, for the phases that leave
    a pod in this branch. *)
Lemma state_message_Pending (name : string) :
  "Pod '" +:+ name +:+ "' is in state " +:+ strconv.Quote "Pending" +:+ "..." +:+ LF
  = state_message name "Pending".
Proof. reflexivity. Qed.

Lemma state_message_Unknown (name : string) :
  "Pod '" +:+ name +:+ "' is in state " +:+ strconv.Quote "Unknown" +:+ "..." +:+ LF
  = state_message name "Unknown".
Proof. reflexivity. Qed.

(** C9: a Pending pod whose ContainersReady condition is Unknown.  The
    informational line is written and a non-nil error is returned, but at
    the message [node disk usage at 100%] the text of the error is not the
    message: line 133 uses the message as a format. *)
Theorem onEvent_condition_percent_message :
  let condition :=
    {| corev1.Type_ := "ContainersReady"; corev1.Status := "Unknown";
       corev1.Message := "node disk usage at 100%" |} in
  let pod := pod_of "app-x7k2p-pod" "Pending" [] ["step-build"] [condition] None in
  let r := session_of (client_of (buildrun_of "app-x7k2p" None None) None) in
  first_failure (corev1.Conditions (corev1.Status_ pod)) = Some condition
  /\ onEvent pod r
     = (Returned (Some (errorString "node disk usage at 100%!(NOVERB)")), r,
        [Out (state_message "app-x7k2p-pod" "Pending")])
  /\ "node disk usage at 100%!(NOVERB)" <> corev1.Message condition.
Proof.
  intros condition pod r. split; [reflexivity |]. split; [reflexivity |].
  intros H. discriminate H.
Qed.

(** What the branch does for every pod: the line, then the error of the
    first failing condition, whose text is the message when the message has
    no percent sign. *)
Lemma onEvent_other_phase (pod : corev1.Pod) (r : RunCommand) :
  watchLock r = false ->
  corev1.Phase (corev1.Status_ pod) <> corev1.PodRunning ->
  corev1.Phase (corev1.Status_ pod) <> corev1.PodFailed ->
  corev1.Phase (corev1.Status_ pod) <> corev1.PodSucceeded ->
  exists res,
    onEvent pod r
    = (Returned res, r,
       [Out ("Pod '" +:+ corev1.GetName pod +:+ "' is in state "
               +:+ strconv.Quote (corev1.Phase (corev1.Status_ pod)) +:+ "..." +:+ LF)])
    /\ match first_failure (corev1.Conditions (corev1.Status_ pod)) with
       | None => res = None
       | Some c =>
           exists e, res = Some e
             /\ Error e = fmt.doPrintf (corev1.Message c)
             /\ (fmt.percent_free (corev1.Message c) = true ->
                 Error e = corev1.Message c)
       end.
Proof.
  intros Hlock H1 H2 H3.
  exists (range_Conditions (corev1.Conditions (corev1.Status_ pod))).
  split; [now apply onEvent_other |].
  rewrite range_Conditions_first.
  destruct (first_failure (corev1.Conditions (corev1.Status_ pod))) as [c|];
    [| reflexivity].
  exists (fmt_Errorf (corev1.Message c)). split; [reflexivity |].
  split; [reflexivity | apply fmt_Errorf_plain].
Qed.

(** ** Tail starts *)

(** C7: the tail starts of [tailLogs] are the container names in declared
    order, init-containers before containers, without the names already in
    the registry and without a name twice; a second call on the same pod
    starts nothing and leaves the registry as it is. *)
Theorem tailLogs_declared_order (pod : corev1.Pod) (r : RunCommand) :
  exists r',
    tailLogs pod r
    = (Returned tt, r',
       map (logTail_Start (corev1.GetNamespace pod) (corev1.GetName pod))
           (unseen (dom (tailLogsStarted r))
              (map corev1.Name (corev1.InitContainers (corev1.Spec pod))
               ++ map corev1.Name (corev1.Containers (corev1.Spec pod)))))
    /\ sublist (started (tailLogs pod r).2)
               (map corev1.Name (corev1.InitContainers (corev1.Spec pod))
                ++ map corev1.Name (corev1.Containers (corev1.Spec pod)))
    /\ tailLogs pod r' = (Returned tt, r', []).
Proof.
  exists (set_tailLogsStarted (register (tailLogsStarted r) (container_names pod)) r).
  split; [apply tailLogs_eq |]. split.
  - rewrite tailLogs_eq. simpl. rewrite started_starts. apply unseen_sublist.
  - rewrite tailLogs_eq. simpl tailLogsStarted.
    rewrite unseen_all_seen by (intros n Hn; now apply names_in_register).
    rewrite register_seen by (intros n Hn; now apply names_in_register).
    reflexivity.
Qed.

(** On a fresh registry, with distinct names, every container is started,
    in declared order. *)
Lemma tailLogs_fresh (pod : corev1.Pod) (r : RunCommand) :
  tailLogsStarted r = ∅ ->
  NoDup (container_names pod) ->
  started (tailLogs pod r).2 = container_names pod.
Proof.
  intros Hempty Hnd. rewrite tailLogs_eq. simpl. rewrite started_starts.
  apply unseen_fresh; [exact Hnd |].
  intros n _. rewrite Hempty, dom_empty_L. apply not_elem_of_empty.
Qed.

Example tailLogs_two_runs :
  let pod := pod_of "app-x7k2p-pod" "Running" ["prepare"; "source"]
               ["step-build"; "prepare"; "step-push"] [] None in
  let r := session_of (client_of (buildrun_of "app-x7k2p" None None) None) in
  (tailLogs pod r).2
  = [logTail_Start "default" "app-x7k2p-pod" "prepare";
     logTail_Start "default" "app-x7k2p-pod" "source";
     logTail_Start "default" "app-x7k2p-pod" "step-build";
     logTail_Start "default" "app-x7k2p-pod" "step-push"]
  /\ (tailLogs pod (tailLogs pod r).1.2).2 = [].
Proof. split; reflexivity. Qed.

(** C3: in a session, whatever the events delivered and the state it starts
    from, the container names of the tail starts are pairwise distinct, none
    of them was in the registry before, each is in the registry afterwards,
    and the registry only grows. *)
Theorem tail_started_at_most_once (pods : list corev1.Pod) (r : RunCommand) :
  NoDup (started (deliver pods r).2)
  /\ Forall (fun n => tailLogsStarted r !! n = None) (started (deliver pods r).2)
  /\ Forall (fun n => is_Some (tailLogsStarted (deliver pods r).1 !! n))
            (started (deliver pods r).2)
  /\ tailLogsStarted r ⊆ tailLogsStarted (deliver pods r).1.
Proof.
  destruct (deliver_invariant pods r) as (Hnd & Hdom & Hfresh & Hsub).
  split; [exact Hnd |]. split; [| split; [| exact Hsub]].
  - eapply Forall_impl; [exact Hfresh |]. intros n Hn. simpl in Hn.
    now apply not_elem_of_dom.
  - apply Forall_forall. intros n Hn. apply elem_of_dom. rewrite Hdom.
    apply elem_of_union_r. now apply elem_of_list_to_set.
Qed.

Example deliver_running_twice :
  let pod := pod_of "app-x7k2p-pod" "Running" ["prepare"] ["step-build"] [] None in
  let r := session_of (client_of (buildrun_of "app-x7k2p" None None) None) in
  (deliver [pod; pod; pod] r).2
  = [time_Sleep 3000000000;
     logTail_Start "default" "app-x7k2p-pod" "prepare";
     logTail_Start "default" "app-x7k2p-pod" "step-build";
     time_Sleep 3000000000; time_Sleep 3000000000].
Proof. reflexivity. Qed.

(** ** The mutex of Run *)

Ltac not_started :=
  let Hin := fresh "Hin" in
  intros Hin; apply list_elem_of_In in Hin; simpl in Hin; intuition discriminate.

(** C10: [Run] takes the mutex first and frees it only on the path that
    reaches the blocking watch start.  When it returns earlier, which is on
    an error or with follow off, the mutex is still held, and every later
    [onEvent] or [Run] on the command waits on it, leaving the command as it
    is, so that the next one waits as well. *)
Theorem Run_holds_watchLock (w : World) (p p' : params.Params) (r r' : RunCommand)
    (e : option error) (tr : list effect) :
  watchLock r = false ->
  Run w (p, r) = (Returned e, (p', r'), tr) ->
  (pw_Start ∈ tr /\ watchLock r' = false)
  \/ ((pw_Start ∉ tr)
      /\ (e <> None \/ follow r = false)
      /\ watchLock r' = true
      /\ (forall pod, onEvent pod r' = (Blocked, r', []))
      /\ (forall w' p'', Run w' (p'', r') = (Blocked, (p'', r'), []))).
Proof.
  intros Hlock H.
  assert (Hheld : watchLock r' = true ->
            (forall pod, onEvent pod r' = (Blocked, r', []))
            /\ (forall w' p'', Run w' (p'', r') = (Blocked, (p'', r'), []))).
  { intros Hr'. split; intros; [now apply onEvent_locked | now apply Run_locked]. }
  destruct (Run_returns w p p' r r' e tr Hlock H)
    as [(err & -> & -> & Hr' & _)
       |[(err & br & c & created & -> & -> & Hr' & _)
        |[(br & msg & -> & Hf & -> & Hr')
         |[(err & br & -> & Hf & -> & Hr' & _)
          |[(err & br & lo & k & -> & Hf & -> & Hr' & _)
           |(br & lo & -> & Hf & -> & Hr')]]]]].
  - right. split; [intros Hin; inversion Hin |].
    split; [left; discriminate |]. split; [exact Hr' | now apply Hheld].
  - right. split; [not_started |].
    split; [left; discriminate |]. split; [exact Hr' | now apply Hheld].
  - right. split; [not_started |].
    split; [now right |]. split; [exact Hr' | now apply Hheld].
  - right. split; [not_started |].
    split; [left; discriminate |]. split; [exact Hr' | now apply Hheld].
  - right. split; [not_started |].
    split; [left; discriminate |]. split; [exact Hr' | now apply Hheld].
  - left. split; [| exact Hr'].
    apply list_elem_of_In. simpl. tauto.
Qed.

Lemma Run_holds_watchLock_witness :
  let w := world_of (inl {| config_id := 0 |}) None in
  let r := command_of "app" false in
  let p' := params.set_shpClientset
              (pointer (Some (client_of (buildrun_of "app-x7k2p" None None) None)))
              fresh_params in
  let r' := set_watchLock true r in
  let tr := [Create_BuildRun "default"
               {| buildv1alpha1.ObjectMeta :=
                    {| metav1.Name := ""; metav1.GenerateName := "app-";
                       metav1.Namespace := ""; metav1.DeletionTimestamp := None |};
                  buildv1alpha1.Spec := {| buildv1alpha1.State := None |} |};
             Out ("BuildRun created " +:+ strconv.Quote "app-x7k2p" +:+ " for build "
                    +:+ strconv.Quote "app" +:+ LF)] in
  watchLock r = false
  /\ Run w (fresh_params, r) = (Returned None, (p', r'), tr)
  /\ ((pw_Start ∈ tr /\ watchLock r' = false)
      \/ ((pw_Start ∉ tr)
          /\ (@None error <> None \/ follow r = false)
          /\ watchLock r' = true
          /\ (forall pod, onEvent pod r' = (Blocked, r', []))
          /\ (forall w' p'', Run w' (p'', r') = (Blocked, (p'', r'), [])))).
Proof.
  intros w r p' r' tr. split; [reflexivity |]. split; [reflexivity |].
  exact (Run_holds_watchLock w fresh_params p' r r' None tr eq_refl eq_refl).
Defined.

(** The early returns, one by one, and the return from the watch. *)
Example Run_clientset_failure :
  let w := world_of (inr (errorString "invalid configuration")) None in
  let r := command_of "app" true in
  Run w (fresh_params, r)
  = (Returned (Some (errorString "invalid configuration")),
     (fresh_params, set_watchLock true r), []).
Proof. reflexivity. Qed.

Example Run_watcher_failure :
  let w := world_of (inl {| config_id := 0 |}) (Some (errorString "watch refused")) in
  let r := command_of "app" true in
  (Run w (fresh_params, r)).1.1 = Returned (Some (errorString "watch refused"))
  /\ watchLock (Run w (fresh_params, r)).1.2.2 = true
  /\ buildRunName (Run w (fresh_params, r)).1.2.2 = "app-x7k2p".
Proof. repeat split; reflexivity. Qed.

Example Run_follows :
  let w := world_of (inl {| config_id := 0 |}) None in
  let r := command_of "app" true in
  (Run w (fresh_params, r)).1.1 = Returned None
  /\ watchLock (Run w (fresh_params, r)).1.2.2 = false
  /\ (Run w (fresh_params, r)).2
     = [Create_BuildRun "default"
          {| buildv1alpha1.ObjectMeta :=
               {| metav1.Name := ""; metav1.GenerateName := "app-";
                  metav1.Namespace := ""; metav1.DeletionTimestamp := None |};
             buildv1alpha1.Spec := {| buildv1alpha1.State := None |} |};
        NewPodWatcher
          {| metav1.LabelSelector :=
               "build.shipwright.io/name=app,buildrun.shipwright.io/name=app-x7k2p" |}
          "default";
        pw_WithOnPodModifiedFn; pw_Start].
Proof. repeat split; reflexivity. Qed.

(** * Further properties of the code *)

(** ** params.go *)

Ltac params_cases :=
  repeat match goal with
         | |- context [params.shpClientset ?p] =>
             is_var p; destruct (params.shpClientset p) as [|[?|]] eqn:?
         | |- context [params.clientset ?p] =>
             is_var p; destruct (params.clientset p) as [|[?|]] eqn:?
         | |- context [ClientConfig ?w] => destruct (ClientConfig w) eqn:?
         | |- context [buildclientset_NewForConfig ?w ?c] =>
             destruct (buildclientset_NewForConfig w c) eqn:?
         | |- context [kubernetes_NewForConfig ?w ?c] =>
             destruct (kubernetes_NewForConfig w c) eqn:?
         end; simpl.

(** X1: [ShipwrightClientSet] always returns, without any effect; it returns
    no error exactly when it returns a clientset that is not nil, which is
    then the cached one; it leaves the Kubernetes clientset and the namespace
    as they are, and a params whose clientset is cached is not changed. *)
Theorem ShipwrightClientSet_contract (w : World) (p : params.Params) :
  exists v err p',
    params.ShipwrightClientSet w p = (Returned (v, err), p', [])
    /\ (err = None <-> not_nil v = true)
    /\ (err = None -> params.shpClientset p' = v)
    /\ params.clientset p' = params.clientset p
    /\ params.namespace p' = params.namespace p
    /\ (not_nil (params.shpClientset p) = true -> p' = p).
Proof.
  unfold params.ShipwrightClientSet, bind, get, modify, ret. simpl.
  params_cases; do 3 eexists; (split; [reflexivity |]); simpl;
    intuition congruence.
Qed.

(** X2: the same contract for [ClientSet], which leaves the Shipwright
    clientset and the namespace as they are. *)
Theorem ClientSet_contract (w : World) (p : params.Params) :
  exists v err p',
    params.ClientSet w p = (Returned (v, err), p', [])
    /\ (err = None <-> not_nil v = true)
    /\ (err = None -> params.clientset p' = v)
    /\ params.shpClientset p' = params.shpClientset p
    /\ params.namespace p' = params.namespace p
    /\ (not_nil (params.clientset p) = true -> p' = p).
Proof.
  unfold params.ClientSet, bind, get, modify, ret. simpl.
  params_cases; do 3 eexists; (split; [reflexivity |]); simpl;
    intuition congruence.
Qed.

(** X3: once [ShipwrightClientSet] has returned without error, every later
    call, whatever the configuration has become, returns the same clientset
    without error and changes nothing. *)
Theorem ShipwrightClientSet_stable (w w' : World) (p p' : params.Params)
    (v : Interface ShpClientset) (tr : list effect) :
  params.ShipwrightClientSet w p = (Returned (v, None), p', tr) ->
  params.ShipwrightClientSet w' p' = (Returned (v, None), p', []).
Proof.
  unfold params.ShipwrightClientSet, bind, get, modify, ret. simpl.
  destruct (params.shpClientset p) as [|ptr] eqn:Hp; simpl.
  - destruct (ClientConfig w) as [config|err]; [| discriminate].
    destruct (buildclientset_NewForConfig w config) as [c|err]; simpl; [| discriminate].
    intros H. injection H as <- <- <-. reflexivity.
  - intros H. injection H as <- <- <-. now rewrite Hp.
Qed.

Lemma ShipwrightClientSet_stable_witness :
  let w := world_of (inl {| config_id := 0 |}) None in
  let w' := world_of (inr (errorString "kubeconfig removed")) None in
  let v := pointer (Some (client_of (buildrun_of "app-x7k2p" None None) None)) in
  let p' := params.set_shpClientset v fresh_params in
  params.ShipwrightClientSet w fresh_params = (Returned (v, None), p', [])
  /\ params.ShipwrightClientSet w' p' = (Returned (v, None), p', []).
Proof.
  intros w w' v p'. split; [reflexivity |].
  exact (ShipwrightClientSet_stable w w' fresh_params p' v [] eq_refl).
Defined.

(** X4: the same for [ClientSet]. *)
Theorem ClientSet_stable (w w' : World) (p p' : params.Params)
    (v : Interface KubeClientset) (tr : list effect) :
  params.ClientSet w p = (Returned (v, None), p', tr) ->
  params.ClientSet w' p' = (Returned (v, None), p', []).
Proof.
  unfold params.ClientSet, bind, get, modify, ret. simpl.
  destruct (params.clientset p) as [|ptr] eqn:Hp; simpl.
  - destruct (ClientConfig w) as [config|err]; [| discriminate].
    destruct (kubernetes_NewForConfig w config) as [c|err]; simpl; [| discriminate].
    intros H. injection H as <- <- <-. reflexivity.
  - intros H. injection H as <- <- <-. now rewrite Hp.
Qed.

Lemma ClientSet_stable_witness :
  let w := world_of (inl {| config_id := 0 |}) None in
  let w' := world_of (inr (errorString "kubeconfig removed")) None in
  let v := pointer (Some {| kube_id := 0 |}) in
  let p' := params.set_clientset v fresh_params in
  params.ClientSet w fresh_params = (Returned (v, None), p', [])
  /\ params.ClientSet w' p' = (Returned (v, None), p', []).
Proof.
  intros w w' v p'. split; [reflexivity |].
  exact (ClientSet_stable w w' fresh_params p' v [] eq_refl).
Defined.

(** X5: an error of the kubeconfig loader leaves the params as they were, so
    that a later call tries again; an error of the clientset's constructor
    does not: line 87 has stored the constructor's nil pointer in the
    interface field, the field is no longer nil, and every later call
    returns that nil pointer without an error. *)
Theorem ShipwrightClientSet_after_failure (w : World) (p : params.Params)
    (err : error) :
  params.shpClientset p = nil_interface ->
  (params.ShipwrightClientSet w p).1.1 = Returned (nil_interface, Some err) ->
  (ClientConfig w = inr err /\ (params.ShipwrightClientSet w p).1.2 = p)
  \/ ((exists config, ClientConfig w = inl config
                      /\ buildclientset_NewForConfig w config = inr err)
      /\ forall w',
           params.ShipwrightClientSet w' (params.ShipwrightClientSet w p).1.2
           = (Returned (pointer None, None),
              (params.ShipwrightClientSet w p).1.2, [])).
Proof.
  intros Hp. unfold params.ShipwrightClientSet, bind, get, modify, ret. simpl.
  rewrite Hp. simpl.
  destruct (ClientConfig w) as [config|e] eqn:Hcfg; simpl.
  - destruct (buildclientset_NewForConfig w config) as [c|e] eqn:Hnew; simpl;
      [discriminate |].
    intros H. injection H as <-. right. split; [eauto |]. reflexivity.
  - intros H. injection H as <-. left. split; reflexivity.
Qed.

Lemma ShipwrightClientSet_after_failure_witness :
  let w :=
    {| ClientConfig := inl {| config_id := 0 |};
       kubernetes_NewForConfig := fun _ => inl {| kube_id := 0 |};
       buildclientset_NewForConfig := fun _ => inr (errorString "no host");
       flags_SanitizeBuildRunSpec := fun spec => spec;
       reactor_NewPodWatcher := fun _ _ _ => None;
       pw_Start_result := None |} in
  params.shpClientset fresh_params = nil_interface
  /\ (params.ShipwrightClientSet w fresh_params).1.1
     = Returned (nil_interface, Some (errorString "no host"))
  /\ ((ClientConfig w = inr (errorString "no host")
       /\ (params.ShipwrightClientSet w fresh_params).1.2 = fresh_params)
      \/ ((exists config, ClientConfig w = inl config
             /\ buildclientset_NewForConfig w config = inr (errorString "no host"))
          /\ forall w',
               params.ShipwrightClientSet w'
                 (params.ShipwrightClientSet w fresh_params).1.2
               = (Returned (pointer None, None),
                  (params.ShipwrightClientSet w fresh_params).1.2, []))).
Proof.
  intros w. split; [reflexivity |]. split; [reflexivity |].
  exact (ShipwrightClientSet_after_failure w fresh_params (errorString "no host")
           eq_refl eq_refl).
Defined.

Ltac contract_rest :=
  simpl; repeat split; intros;
  repeat match goal with H : exists _, _ |- _ => destruct H end;
  try congruence; try discriminate.

(** X6: [Client] always returns without effect; an error comes with a nil
    client; the two clientsets are never touched; with a cached client, or
    when the kubeconfig cannot be loaded, the params are not changed at
    all. *)
Theorem Client_contract (w : World) (l : Loader) (p : ParamsWithClient) :
  exists v err p',
    Client w l p = (Returned (v, err), p', [])
    /\ (err <> None -> v = nil_interface)
    /\ params.clientset (fields p') = params.clientset (fields p)
    /\ params.shpClientset (fields p') = params.shpClientset (fields p)
    /\ (not_nil (client p) = true -> p' = p /\ v = client p /\ err = None)
    /\ ((exists e, ClientConfig w = inr e) -> p' = p).
Proof.
  unfold Client, bind, get, modify, ret. simpl.
  destruct (client p) as [|ptr] eqn:Hc; simpl.
  - destruct (ClientConfig w) as [config|e] eqn:Hcfg; simpl.
    + destruct (Namespace_result l) as [ns [e|]]; simpl.
      * do 3 eexists. split; [reflexivity |]. contract_rest.
      * destruct (dynamic_NewForConfig l config) as [c [e|]]; simpl;
          do 3 eexists; (split; [reflexivity |]); contract_rest.
    + do 3 eexists. split; [reflexivity |]. contract_rest.
  - do 3 eexists. split; [reflexivity |]. contract_rest.
Qed.

(** X7: when there is no cached client and the kubeconfig loads, [Client]
    stores the namespace that the loader reports, also when it then fails:
    on an error of [Namespace()] itself, or of the client's constructor,
    whose error comes back wrapped. *)
Theorem Client_namespace (w : World) (l : Loader) (p : ParamsWithClient)
    (config : Config) :
  client p = nil_interface ->
  ClientConfig w = inl config ->
  params.namespace (fields (Client w l p).1.2) = (Namespace_result l).1
  /\ (forall e, (Namespace_result l).2 = Some e ->
        (Client w l p).1.1 = Returned (nil_interface, Some e)
        /\ client (Client w l p).1.2 = nil_interface)
  /\ (forall c e, (Namespace_result l).2 = None ->
        dynamic_NewForConfig l config = (c, Some e) ->
        (Client w l p).1.1
        = Returned (nil_interface,
                    Some (errorString ("could not create Dynamic client: " +:+ Error e)))).
Proof.
  intros Hc Hcfg. unfold Client, bind, get, modify, ret. simpl.
  rewrite Hc, Hcfg. simpl.
  destruct (Namespace_result l) as [ns [e|]]; simpl.
  - split; [reflexivity |]. split; [| intros c e' H; discriminate].
    intros e' H. injection H as <-. split; [reflexivity | exact Hc].
  - destruct (dynamic_NewForConfig l config) as [c [e|]] eqn:Hnew; simpl.
    + split; [reflexivity |]. split; [intros e' H; discriminate |].
      intros c' e' _ H. injection H as <- <-. reflexivity.
    + split; [reflexivity |]. split; [intros e' H; discriminate |].
      intros c' e' _ H. discriminate.
Qed.

Lemma Client_namespace_witness :
  let w := world_of (inl {| config_id := 0 |}) None in
  let l := loader_of "builds" None (nil_interface, Some (errorString "no host")) in
  let p := {| client := nil_interface; fields := NewParams |} in
  client p = nil_interface
  /\ ClientConfig w = inl {| config_id := 0 |}
  /\ params.namespace (fields (Client w l p).1.2) = "builds"
  /\ (Client w l p).1.1
     = Returned (nil_interface,
                 Some (errorString "could not create Dynamic client: no host")).
Proof.
  intros w l p. split; [reflexivity |]. split; [reflexivity |].
  destruct (Client_namespace w l p {| config_id := 0 |} eq_refl eq_refl)
    as (Hns & _ & Hwrap).
  split; [exact Hns |].
  exact (Hwrap nil_interface (errorString "no host") eq_refl eq_refl).
Defined.

(** ** Complete and Validate *)

(** X8: with no argument, or with more than one, [Complete] returns the
    error "Build name is not informed" and changes neither the command nor
    the params: no clientset is built. *)
Theorem Complete_wrong_arguments (w : World) (Flags_Set : string -> option error)
    (args : list string) (p : params.Params) (r : RunCommand) :
  length args <> 1 ->
  Complete w Flags_Set args (p, r)
  = (Returned (Some (errorString "Build name is not informed")), (p, r), []).
Proof.
  intros H. destruct args as [|a [|b rest]]; [reflexivity | | reflexivity].
  now destruct H.
Qed.

Lemma Complete_wrong_arguments_witness :
  let w := world_of (inl {| config_id := 0 |}) None in
  let r := runCmd {| buildv1alpha1.State := None |} in
  length ["app"; "other"] <> 1
  /\ Complete w (fun _ => None) ["app"; "other"] (NewParams, r)
     = (Returned (Some (errorString "Build name is not informed")), (NewParams, r), []).
Proof.
  intros w r. split; [intros H; discriminate H |].
  refine (Complete_wrong_arguments w (fun _ => None) ["app"; "other"] NewParams r _).
  intros H. discriminate H.
Defined.

(** With one argument [Complete] returns, without effect, and the command
    is the one it was given with the argument as build name. *)
Lemma Complete_single (w : World) (Flags_Set : string -> option error)
    (name : string) (p : params.Params) (r : RunCommand) :
  exists res p',
    Complete w Flags_Set [name] (p, r) = (Returned res, (p', set_buildName name r), []).
Proof.
  unfold Complete, bind, on_self, on_params, get, modify, ret. simpl.
  unfold params.ClientSet, bind, get, modify, ret. simpl.
  params_cases; do 2 eexists; reflexivity.
Qed.

(** X9: with one argument [Complete] returns, and the build name of the
    command is then that argument, whether [Complete] has succeeded or not;
    when it returns nil the Kubernetes clientset is cached in the params
    and the flag was set without error; and with a clientset already cached
    the params are not changed and the result is what setting the flag
    returns. *)
Theorem Complete_one_argument (w : World) (Flags_Set : string -> option error)
    (name : string) (p : params.Params) (r : RunCommand) :
  exists res,
    (Complete w Flags_Set [name] (p, r)).1.1 = Returned res
    /\ buildName (Complete w Flags_Set [name] (p, r)).1.2.2 = name
    /\ (res = None ->
        not_nil (params.clientset (Complete w Flags_Set [name] (p, r)).1.2.1) = true
        /\ Flags_Set name = None)
    /\ (not_nil (params.clientset p) = true ->
        (Complete w Flags_Set [name] (p, r)).1.2.1 = p /\ res = Flags_Set name).
Proof.
  unfold Complete, bind, on_self, on_params, get, modify, ret. simpl.
  unfold params.ClientSet, bind, get, modify, ret. simpl.
  params_cases; eexists; (split; [reflexivity |]); contract_rest;
    auto;
    match goal with E : params.clientset _ = _ |- _ => now rewrite E end.
Qed.

(** X10: after a [Complete] that returned nil, [Validate] accepts the
    command exactly when the argument was not the empty string; its error
    says "name is not informed". *)
Theorem Validate_after_Complete (w : World) (Flags_Set : string -> option error)
    (args : list string) (p p' : params.Params) (r r' : RunCommand)
    (tr : list effect) :
  Complete w Flags_Set args (p, r) = (Returned None, (p', r'), tr) ->
  args = [buildName r']
  /\ (Validate r' = None <-> args <> [""])
  /\ (args = [""] -> Validate r' = Some (errorString "name is not informed")).
Proof.
  intros H.
  destruct args as [|name [|b rest]]; [discriminate H | | discriminate H].
  destruct (Complete_single w Flags_Set name p r) as (res & p0 & E).
  rewrite E in H. injection H as -> <- <- <-.
  split; [reflexivity |]. unfold Validate. simpl.
  destruct (String.eqb_spec name "") as [->|Hne].
  - split; [split; [discriminate | intros H; now destruct H] | reflexivity].
  - split; [split; [intros _ H; injection H as ->; now destruct Hne | reflexivity] |].
    intros H. injection H as ->. now destruct Hne.
Qed.

Lemma Validate_after_Complete_witness :
  let w := world_of (inl {| config_id := 0 |}) None in
  let r := runCmd {| buildv1alpha1.State := None |} in
  let p' := params.set_clientset (pointer (Some {| kube_id := 0 |})) NewParams in
  Complete w (fun _ => None) [""] (NewParams, r)
  = (Returned None, (p', set_buildName "" r), [])
  /\ Validate (set_buildName "" r) = Some (errorString "name is not informed").
Proof.
  intros w r p'. split; [reflexivity |].
  exact (proj2 (proj2 (Validate_after_Complete w (fun _ => None) [""] NewParams p'
                         r (set_buildName "" r) [] eq_refl)) eq_refl).
Defined.

(** ** The handler *)

Lemma phase_cases (pod : corev1.Pod) :
  corev1.Phase (corev1.Status_ pod) = corev1.PodRunning
  \/ corev1.Phase (corev1.Status_ pod) = corev1.PodFailed
  \/ corev1.Phase (corev1.Status_ pod) = corev1.PodSucceeded
  \/ (corev1.Phase (corev1.Status_ pod) <> corev1.PodRunning
      /\ corev1.Phase (corev1.Status_ pod) <> corev1.PodFailed
      /\ corev1.Phase (corev1.Status_ pod) <> corev1.PodSucceeded).
Proof.
  destruct (String.eqb_spec (corev1.Phase (corev1.Status_ pod)) corev1.PodRunning);
    [tauto |].
  destruct (String.eqb_spec (corev1.Phase (corev1.Status_ pod)) corev1.PodFailed);
    [tauto |].
  destruct (String.eqb_spec (corev1.Phase (corev1.Status_ pod)) corev1.PodSucceeded);
    tauto.
Qed.

Lemma usable_or_not (v : Interface ShpClientset) :
  (exists c, v = pointer (Some c)) \/ (forall c, v <> pointer (Some c)).
Proof. destruct v as [|[c|]]; [right | left; eauto | right]; congruence. Qed.

(** X11: called with the mutex free, the handler never waits, ends with the
    mutex free again, also when it panics, and changes the command in
    nothing but the registry of started tails; on a pod that is not
    Running it does not change the command at all. *)
Theorem onEvent_frame (pod : corev1.Pod) (r : RunCommand) :
  watchLock r = false ->
  (onEvent pod r).1.1 <> Blocked
  /\ (onEvent pod r).1.2
     = set_tailLogsStarted (tailLogsStarted (onEvent pod r).1.2) r
  /\ (corev1.Phase (corev1.Status_ pod) <> corev1.PodRunning ->
      (onEvent pod r).1.2 = r).
Proof.
  intros Hlock.
  destruct (phase_cases pod) as [H|[H|[H|(H1 & H2 & H3)]]].
  - rewrite onEvent_Running by assumption. simpl.
    split; [discriminate |]. split; [reflexivity | intros Hn; contradiction].
  - destruct (usable_or_not (shpClientset r)) as [[c Hc]|Hc].
    + destruct (BuildRuns_Get c (metav1.Namespace (corev1.ObjectMeta pod)) (buildRunName r))
        as [br err] eqn:Hget.
      rewrite (onEvent_Failed pod r c br err) by assumption. simpl.
      split; [discriminate |]. split; [now rewrite set_tailLogsStarted_id | reflexivity].
    + rewrite onEvent_Failed_nil by assumption. simpl.
      split; [discriminate |]. split; [now rewrite set_tailLogsStarted_id | reflexivity].
  - rewrite onEvent_Succeeded by assumption. simpl.
    split; [discriminate |]. split; [now rewrite set_tailLogsStarted_id | reflexivity].
  - rewrite onEvent_other by assumption. simpl.
    split; [discriminate |]. split; [now rewrite set_tailLogsStarted_id | reflexivity].
Qed.

Lemma onEvent_frame_witness :
  let pod := pod_of "app-x7k2p-pod" "Failed" [] ["step-build"] [] None in
  let r := command_of "app" true in
  watchLock r = false
  /\ (onEvent pod r).1.1 = Panicked
  /\ (onEvent pod r).1.2 = r.
Proof.
  intros pod r. split; [reflexivity |]. split; [reflexivity |].
  refine (proj2 (proj2 (onEvent_frame pod r eq_refl)) _).
  intros H. discriminate H.
Defined.

(** X12: on a Failed pod, when the Shipwright clientset of the command is a
    nil interface or holds a nil pointer, the handler panics at the method
    call of line 108, before it writes or stops anything; the deferred
    [Unlock] runs, so the mutex is free again and the command is as it
    was. *)
Theorem onEvent_Failed_unusable_clientset (pod : corev1.Pod) (r : RunCommand) :
  watchLock r = false ->
  corev1.Phase (corev1.Status_ pod) = corev1.PodFailed ->
  (forall c, shpClientset r <> pointer (Some c)) ->
  onEvent pod r = (Panicked, r, []).
Proof. intros Hlock Hphase Hc. now apply onEvent_Failed_nil. Qed.

Lemma onEvent_Failed_unusable_clientset_witness :
  let pod := pod_of "app-x7k2p-pod" "Failed" [] ["step-build"] [] None in
  let r := set_shpClientset (pointer None) (command_of "app" true) in
  watchLock r = false
  /\ corev1.Phase (corev1.Status_ pod) = corev1.PodFailed
  /\ onEvent pod r = (Panicked, r, []).
Proof.
  intros pod r. split; [reflexivity |]. split; [reflexivity |].
  refine (onEvent_Failed_unusable_clientset pod r eq_refl eq_refl _).
  intros c H. discriminate H.
Defined.

(** One event of a session whose clientset is usable: the handler returns,
    the mutex is free again, the clientset and the run's name are kept, and
    the watcher is stopped once on a Failed or Succeeded pod and not at all
    on another. *)
Lemma onEvent_step (pod : corev1.Pod) (r : RunCommand) (c : ShpClientset) :
  watchLock r = false ->
  shpClientset r = pointer (Some c) ->
  exists res r' tr,
    onEvent pod r = (Returned res, r', tr)
    /\ watchLock r' = false
    /\ shpClientset r' = pointer (Some c)
    /\ stops tr = (if terminal pod then 1 else 0)
    /\ (terminal pod = true -> exists msg, tr = [Out msg; logTail_Stop; pw_Stop])
    /\ (terminal pod = false -> (logTail_Stop ∉ tr) /\ (pw_Stop ∉ tr)).
Proof.
  intros Hlock Hc. unfold terminal.
  destruct (phase_cases pod) as [H|[H|[H|(H1 & H2 & H3)]]].
  - rewrite onEvent_Running by assumption. rewrite H. simpl.
    do 3 eexists. split; [reflexivity |]. simpl.
    split; [exact Hlock |]. split; [exact Hc |].
    assert (Hno : forall l e, (forall ns p n, e <> logTail_Start ns p n) ->
              e ∉ map (logTail_Start (corev1.GetNamespace pod) (corev1.GetName pod)) l).
    { intros l e He Hin. apply list_elem_of_fmap in Hin as (n & -> & _).
      exact (He _ _ _ eq_refl). }
    split.
    { induction (unseen (dom (tailLogsStarted r)) (container_names pod));
        [reflexivity | exact IHl]. }
    split; [discriminate |]. intros _.
    split; (intros Hin; apply elem_of_cons in Hin as [Hin|Hin]; [discriminate |];
            revert Hin; apply Hno; discriminate).
  - destruct (BuildRuns_Get c (metav1.Namespace (corev1.ObjectMeta pod)) (buildRunName r))
      as [br err] eqn:Hget.
    rewrite (onEvent_Failed pod r c br err) by assumption. rewrite H. simpl.
    do 3 eexists. split; [reflexivity |]. simpl.
    split; [exact Hlock |]. split; [exact Hc |]. split; [reflexivity |].
    split; [eauto | discriminate].
  - rewrite onEvent_Succeeded by assumption. rewrite H. simpl.
    do 3 eexists. split; [reflexivity |]. simpl.
    split; [exact Hlock |]. split; [exact Hc |]. split; [reflexivity |].
    split; [eauto | discriminate].
  - rewrite onEvent_other by assumption.
    apply String.eqb_neq in H2, H3. rewrite H2, H3. simpl.
    do 3 eexists. split; [reflexivity |]. simpl.
    split; [exact Hlock |]. split; [exact Hc |]. split; [reflexivity |].
    split; [discriminate |]. intros _.
    split; (intros Hin; apply list_elem_of_In in Hin; simpl in Hin;
            intuition discriminate).
Qed.

(** X13: in a session (mutex free, clientset usable) the handler shuts down
    exactly on a Failed or a Succeeded pod: there its effects are one write,
    then [logTail.Stop], then [pw.Stop]; on every other pod it stops
    neither collaborator. *)
Theorem onEvent_shutdown (pod : corev1.Pod) (r : RunCommand) (c : ShpClientset) :
  watchLock r = false ->
  shpClientset r = pointer (Some c) ->
  (terminal pod = true ->
     exists msg, (onEvent pod r).2 = [Out msg; logTail_Stop; pw_Stop])
  /\ (terminal pod = false ->
        (logTail_Stop ∉ (onEvent pod r).2) /\ (pw_Stop ∉ (onEvent pod r).2)).
Proof.
  intros Hlock Hc.
  destruct (onEvent_step pod r c Hlock Hc) as (res & r' & tr & E & _ & _ & _ & Ht & Hn).
  rewrite E. simpl. split; assumption.
Qed.

Lemma onEvent_shutdown_witness :
  let pod := pod_of "app-x7k2p-pod" "Succeeded" [] ["step-build"] [] None in
  let c := client_of (buildrun_of "app-x7k2p" None None) None in
  let r := session_of c in
  watchLock r = false
  /\ terminal pod = true
  /\ exists msg, (onEvent pod r).2 = [Out msg; logTail_Stop; pw_Stop].
Proof.
  intros pod c r. split; [reflexivity |]. split; [reflexivity |].
  exact (proj1 (onEvent_shutdown pod r c eq_refl eq_refl) eq_refl).
Defined.

(** X14: the handler keeps no record of a shutdown: in a session every
    Failed or Succeeded event that is delivered stops the watcher again, so
    the number of [pw.Stop] calls is the number of such events. *)
Theorem deliver_stops (pods : list corev1.Pod) :
  forall (r : RunCommand) (c : ShpClientset),
    watchLock r = false ->
    shpClientset r = pointer (Some c) ->
    stops (deliver pods r).2 = length (filter (fun pod => terminal pod = true) pods).
Proof.
  assert (Happ : forall a b, stops (a ++ b) = stops a + stops b).
  { intros a b. induction a as [|e a IH]; [reflexivity |].
    destruct e; simpl; rewrite IH; reflexivity. }
  induction pods as [|pod pods IH]; intros r c Hlock Hc; [reflexivity |].
  simpl deliver.
  destruct (onEvent_step pod r c Hlock Hc)
    as (res & r' & tr & E & Hlock' & Hc' & Hstops & _).
  rewrite E. specialize (IH r' c Hlock' Hc').
  destruct (deliver pods r') as [r'' tr']. simpl in *.
  rewrite Happ, Hstops, IH.
  rewrite filter_cons. destruct (terminal pod); simpl.
  - destruct (decide (true = true)); [reflexivity | contradiction].
  - destruct (decide (false = true)); [discriminate | reflexivity].
Qed.

Lemma deliver_stops_witness :
  let pod := pod_of "app-x7k2p-pod" "Succeeded" [] ["step-build"] [] None in
  let c := client_of (buildrun_of "app-x7k2p" None None) None in
  let r := session_of c in
  watchLock r = false
  /\ stops (deliver [pod; pod] r).2 = 2.
Proof.
  intros pod c r. split; [reflexivity |].
  exact (deliver_stops [pod; pod] r c eq_refl eq_refl).
Defined.

(** X15: on a Failed pod, when neither the BuildRun's name nor the pod's
    holds a percent sign, the bytes written are exactly the message of the
    terminal reason, the BuildRun's deleted message going before the pod's,
    and the error returned is the generic one for the generic failure and
    the one of the fetch otherwise. *)
Theorem onEvent_Failed_plain_names (pod : corev1.Pod) (r : RunCommand)
    (c : ShpClientset) (br : buildv1alpha1.BuildRun) (err : option error) :
  watchLock r = false ->
  corev1.Phase (corev1.Status_ pod) = corev1.PodFailed ->
  shpClientset r = pointer (Some c) ->
  BuildRuns_Get c (metav1.Namespace (corev1.ObjectMeta pod)) (buildRunName r)
  = (br, err) ->
  fmt.percent_free (buildv1alpha1.GetName br) = true ->
  fmt.percent_free (corev1.GetName pod) = true ->
  onEvent pod r
  = (Returned
       match terminal_reason pod br err with
       | PodFailure =>
           Some (errorString ("build pod '" +:+ corev1.GetName pod +:+ "' has failed"))
       | _ => err
       end,
     r,
     [Out match terminal_reason pod br err with
          | Canceled => canceled_message "BuildRun" (buildv1alpha1.GetName br)
          | Deleted =>
              if is_nil err && has_marker (buildv1alpha1.ObjectMeta br)
              then deleted_message "BuildRun" (buildv1alpha1.GetName br)
              else deleted_message "Pod" (corev1.GetName pod)
          | PodFailure => failed_message (corev1.GetName pod)
          end;
      logTail_Stop; pw_Stop]).
Proof.
  intros Hlock Hphase Hc Hget Hbr Hpod.
  rewrite (onEvent_Failed pod r c br err) by assumption.
  rewrite failed_reason_error, failed_reason_message.
  do 4 f_equal.
  destruct (terminal_reason pod br err).
  - now apply canceled_message_plain.
  - destruct (is_nil err && has_marker (buildv1alpha1.ObjectMeta br));
      now apply deleted_message_plain.
  - now apply failed_message_plain.
Qed.

Lemma onEvent_Failed_plain_names_witness :
  let pod := pod_of "app-x7k2p-pod" "Failed" [] ["step-build"] [] (Some 1700000000%Z) in
  let br := buildrun_of "app-x7k2p" None (Some 1700000000%Z) in
  let r := session_of (client_of br None) in
  watchLock r = false
  /\ fmt.percent_free (buildv1alpha1.GetName br) = true
  /\ onEvent pod r
     = (Returned None, r,
        [Out ("BuildRun 'app-x7k2p' has been deleted." +:+ LF); logTail_Stop; pw_Stop]).
Proof.
  intros pod br r. split; [reflexivity |]. split; [reflexivity |].
  exact (onEvent_Failed_plain_names pod r (client_of br None) br None
           eq_refl eq_refl eq_refl eq_refl eq_refl eq_refl).
Defined.

(** X16: when the re-fetch fails and the pod carries no deletion marker, the
    error of the fetch is dropped: the handler returns the generic error,
    whose text names the pod, whatever the pod's name. *)
Theorem onEvent_fetch_error_dropped (pod : corev1.Pod) (r : RunCommand)
    (c : ShpClientset) (br : buildv1alpha1.BuildRun) (e : error) :
  watchLock r = false ->
  corev1.Phase (corev1.Status_ pod) = corev1.PodFailed ->
  shpClientset r = pointer (Some c) ->
  BuildRuns_Get c (metav1.Namespace (corev1.ObjectMeta pod)) (buildRunName r)
  = (br, Some e) ->
  metav1.DeletionTimestamp (corev1.ObjectMeta pod) = None ->
  (onEvent pod r).1.1
  = Returned (Some (errorString ("build pod '" +:+ corev1.GetName pod +:+ "' has failed"))).
Proof.
  intros Hlock Hphase Hc Hget Hpod.
  rewrite (onEvent_Failed pod r c br (Some e)) by assumption.
  unfold failed_reason. rewrite Hpod. reflexivity.
Qed.

Lemma onEvent_fetch_error_dropped_witness :
  let pod := pod_of "app-x7k2p-pod" "Failed" [] ["step-build"] [] None in
  let e := errorString "connection refused" in
  let r := session_of (client_of (buildrun_of "" None None) (Some e)) in
  watchLock r = false
  /\ (onEvent pod r).1.1
     = Returned (Some (errorString "build pod 'app-x7k2p-pod' has failed")).
Proof.
  intros pod e r. split; [reflexivity |].
  exact (onEvent_fetch_error_dropped pod r
           (client_of (buildrun_of "" None None) (Some e)) (buildrun_of "" None None) e
           eq_refl eq_refl eq_refl eq_refl eq_refl).
Defined.

(** Quoting a text of printable ASCII bytes without a double quote or a
    backslash only puts it between double quotes. *)
Lemma appendQuoted_plain (s : string) :
  plain_text s = true -> strconv.appendQuoted 0 s = s.
Proof.
  induction s as [|x s IH]; [reflexivity |].
  simpl. intros H.
  apply andb_true_iff in H as [H Hs]. apply andb_true_iff in H as [H H92].
  apply andb_true_iff in H as [Hp H34].
  assert (Hlt : (N_of_ascii x <? 128)%N = true).
  { unfold byte_in in Hp. apply andb_true_iff in Hp as [_ Hp].
    apply N.leb_le in Hp. apply N.ltb_lt. lia. }
  rewrite Hlt. unfold strconv.escape1.
  apply negb_true_iff in H34, H92. rewrite H34, H92, Hp.
  rewrite append_cons, append_nil. now rewrite IH.
Qed.

Lemma Quote_plain (s : string) :
  plain_text s = true -> strconv.Quote s = DQUOTE +:+ s +:+ DQUOTE.
Proof. intros H. unfold strconv.Quote. now rewrite appendQuoted_plain. Qed.

(** X17: on a pod in any other phase, written in plain printable ASCII, the
    handler writes the state line with the phase between double quotes and
    nothing else, and leaves the command as it is; it returns nil when no
    condition of type Initialized or ContainersReady has status Unknown,
    and otherwise an error made from the message of the first such
    condition, whose text is that message when the message holds no percent
    sign. *)
Theorem onEvent_other_phase_plain (pod : corev1.Pod) (r : RunCommand) :
  watchLock r = false ->
  corev1.Phase (corev1.Status_ pod) <> corev1.PodRunning ->
  corev1.Phase (corev1.Status_ pod) <> corev1.PodFailed ->
  corev1.Phase (corev1.Status_ pod) <> corev1.PodSucceeded ->
  plain_text (corev1.Phase (corev1.Status_ pod)) = true ->
  exists res,
    onEvent pod r
    = (Returned res, r,
       [Out (state_message (corev1.GetName pod) (corev1.Phase (corev1.Status_ pod)))])
    /\ match first_failure (corev1.Conditions (corev1.Status_ pod)) with
       | None => res = None
       | Some c =>
           exists e, res = Some e
             /\ (fmt.percent_free (corev1.Message c) = true ->
                 Error e = corev1.Message c)
       end.
Proof.
  intros Hlock H1 H2 H3 Hplain.
  exists (range_Conditions (corev1.Conditions (corev1.Status_ pod))).
  split.
  - rewrite onEvent_other by assumption.
    rewrite (Quote_plain _ Hplain). unfold state_message.
    now rewrite !append_assoc.
  - rewrite range_Conditions_first.
    destruct (first_failure (corev1.Conditions (corev1.Status_ pod))) as [c|];
      [| reflexivity].
    exists (fmt_Errorf (corev1.Message c)). split; [reflexivity |].
    apply fmt_Errorf_plain.
Qed.

Lemma onEvent_other_phase_plain_witness :
  let ready := {| corev1.Type_ := "Ready"; corev1.Status := "Unknown";
                  corev1.Message := "ignored" |} in
  let pulling := {| corev1.Type_ := "ContainersReady"; corev1.Status := "Unknown";
                    corev1.Message := "ImagePullBackOff" |} in
  let pod := pod_of "app-x7k2p-pod" "Pending" [] ["step-build"] [ready; pulling] None in
  let r := session_of (client_of (buildrun_of "app-x7k2p" None None) None) in
  watchLock r = false
  /\ plain_text "Pending" = true
  /\ first_failure [ready; pulling] = Some pulling
  /\ exists res,
       onEvent pod r
       = (Returned res, r, [Out (state_message "app-x7k2p-pod" "Pending")])
       /\ exists e, res = Some e
            /\ (fmt.percent_free "ImagePullBackOff" = true -> Error e = "ImagePullBackOff").
Proof.
  intros ready pulling pod r. split; [reflexivity |]. split; [reflexivity |].
  split; [reflexivity |].
  refine (onEvent_other_phase_plain pod r eq_refl _ _ _ eq_refl);
    intros H; discriminate H.
Defined.

(** X18: the first Running event of a command whose registry is empty, as
    [runCmd] builds it, for a pod whose container names are distinct: the
    handler sleeps three seconds once, then starts a tail for every
    init-container and every container, in declared order, with the pod's
    namespace and name; it writes nothing, stops nothing and returns nil,
    and the registry then holds exactly these names. *)
Theorem onEvent_first_Running (pod : corev1.Pod) (r : RunCommand) :
  watchLock r = false ->
  corev1.Phase (corev1.Status_ pod) = corev1.PodRunning ->
  tailLogsStarted r = ∅ ->
  NoDup (container_names pod) ->
  (onEvent pod r).1.1 = Returned None
  /\ (onEvent pod r).2
     = time_Sleep 3000000000
       :: map (logTail_Start (corev1.GetNamespace pod) (corev1.GetName pod))
              (container_names pod)
  /\ dom (tailLogsStarted (onEvent pod r).1.2) = list_to_set (container_names pod).
Proof.
  intros Hlock Hphase Hempty Hnd.
  assert (Hu : unseen (dom (tailLogsStarted r)) (container_names pod)
               = container_names pod).
  { apply unseen_fresh; [exact Hnd |].
    intros n _. rewrite Hempty, dom_empty_L. apply not_elem_of_empty. }
  rewrite onEvent_Running by assumption. simpl.
  split; [reflexivity |]. split; [now rewrite Hu |].
  rewrite dom_register, Hu, Hempty, dom_empty_L. apply union_empty_l_L.
Qed.

Lemma onEvent_first_Running_witness :
  let pod := pod_of "app-x7k2p-pod" "Running" ["prepare"] ["step-build"; "step-push"]
               [] None in
  let r := runCmd {| buildv1alpha1.State := None |} in
  watchLock r = false
  /\ NoDup (container_names pod)
  /\ (onEvent pod r).2
     = [time_Sleep 3000000000;
        logTail_Start "default" "app-x7k2p-pod" "prepare";
        logTail_Start "default" "app-x7k2p-pod" "step-build";
        logTail_Start "default" "app-x7k2p-pod" "step-push"].
Proof.
  intros pod r.
  assert (Hnd : NoDup (container_names pod)).
  { apply (bool_decide_unpack (NoDup (container_names pod))). vm_compute. exact I. }
  split; [reflexivity |]. split; [exact Hnd |].
  exact (proj1 (proj2 (onEvent_first_Running pod r eq_refl eq_refl eq_refl Hnd))).
Defined.

Lemma register_lookup (names : list string) :
  forall (m : gmap string bool) (n : string) (b : bool),
    register m names !! n = Some b ->
    m !! n = Some b \/ (b = true /\ n ∈ unseen (dom m) names).
Proof.
  induction names as [|x names IH]; intros m n b; [now left |].
  rewrite register_cons. simpl unseen.
  destruct (m !! x) as [bx|] eqn:Hx.
  - destruct (decide (x ∈ dom m)) as [_|Hn]; [apply IH |].
    exfalso. apply Hn, elem_of_dom. eauto.
  - destruct (decide (x ∈ dom m)) as [Hin|_].
    { apply elem_of_dom in Hin as [b' Hb']. congruence. }
    intros H. apply IH in H as [H|[-> H]].
    + destruct (decide (x = n)) as [->|Hne].
      * rewrite lookup_insert_eq in H. injection H as <-.
        right. split; [reflexivity | now left].
      * rewrite lookup_insert_ne in H by exact Hne. now left.
    + right. split; [reflexivity |]. right. now rewrite dom_insert_L in H.
Qed.

(** X19: after any session, an entry of the registry is either an entry the
    registry had before, with the value it had, or a container name whose
    tail was started in the session, with the value [true]: the handler
    writes no other value and overwrites none. *)
Theorem registry_entries (pods : list corev1.Pod) :
  forall (r : RunCommand) (n : string) (b : bool),
    tailLogsStarted (deliver pods r).1 !! n = Some b ->
    tailLogsStarted r !! n = Some b
    \/ (b = true /\ n ∈ started (deliver pods r).2).
Proof.
  induction pods as [|pod pods IH]; intros r n b; [now left |].
  simpl deliver.
  destruct (onEvent_registry pod r) as (names & Hst & Hreg).
  destruct (onEvent pod r) as [[o r1] tr1]. simpl in Hst, Hreg.
  assert (Hone : tailLogsStarted r1 !! n = Some b ->
            tailLogsStarted r !! n = Some b \/ (b = true /\ n ∈ started tr1)).
  { rewrite Hreg, Hst. apply register_lookup. }
  destruct o; [| exact Hone | exact Hone].
  specialize (IH r1 n b). destruct (deliver pods r1) as [r2 tr2]. simpl in *.
  rewrite started_app. intros H. apply IH in H as [H|[-> H]].
  - apply Hone in H as [H|[-> H]]; [now left |].
    right. split; [reflexivity |]. apply elem_of_app. now left.
  - right. split; [reflexivity |]. apply elem_of_app. now right.
Qed.

Lemma registry_entries_witness :
  let pod := pod_of "app-x7k2p-pod" "Running" ["prepare"] ["step-build"] [] None in
  let r := set_tailLogsStarted {[ "prepare" := false ]}
             (runCmd {| buildv1alpha1.State := None |}) in
  tailLogsStarted (deliver [pod; pod] r).1 !! "prepare" = Some false
  /\ (tailLogsStarted r !! "prepare" = Some false
      \/ (false = true /\ "prepare" ∈ started (deliver [pod; pod] r).2)).
Proof.
  intros pod r.
  assert (H : tailLogsStarted (deliver [pod; pod] r).1 !! "prepare" = Some false).
  { vm_compute. reflexivity. }
  split; [exact H |].
  exact (registry_entries [pod; pod] r "prepare" false H).
Defined.

(** ** Run *)

Ltac run_cases H :=
  unfold Run, params.ShipwrightClientSet, params.ClientSet in H;
  unfold bind, on_self, on_params, Lock, Unlock, get, modify, emit, ret,
    deref, panic in H.

(** X20: when [Run] comes back from the blocking watch start, it has made
    the create request of lines 153-159 once, built the watcher with the
    label selector of the build's name and the created run's name, and
    installed the handler, in this order; and it has left the command ready
    for the handler: the mutex free, the run's name stored, a usable
    clientset stored, so that the handler returns on every pod. *)
Theorem Run_starts_session (w : World) (p p' : params.Params) (r r' : RunCommand)
    (e : option error) (tr : list effect) :
  watchLock r = false ->
  Run w (p, r) = (Returned e, (p', r'), tr) ->
  pw_Start ∈ tr ->
  exists c created,
    BuildRuns_Create c (params.Namespace p) (request_of w r) = (created, None)
    /\ tr = [Create_BuildRun (params.Namespace p) (request_of w r);
             NewPodWatcher
               {| metav1.LabelSelector :=
                    "build.shipwright.io/name=" +:+ buildName r
                      +:+ ",buildrun.shipwright.io/name="
                      +:+ buildv1alpha1.GetName created |}
               (params.Namespace p);
             pw_WithOnPodModifiedFn; pw_Start]
    /\ follow r = true
    /\ e = pw_Start_result w
    /\ watchLock r' = false
    /\ buildRunName r' = buildv1alpha1.GetName created
    /\ shpClientset r' = pointer (Some c)
    /\ forall pod, exists res r'' tr', onEvent pod r' = (Returned res, r'', tr').
Proof.
  intros Hlock H Hin. run_cases H. rewrite Hlock in H. simpl in H.
  repeat world_case H.
  all: injection H as <- <- <- <-.
  all: try congruence.
  all: try (exfalso; revert Hin; not_started).
  all: repeat match goal with
              | E : pointer _ = pointer _ |- _ => injection E as E; try subst
              end.
  all: unfold request_of, params.Namespace.
  all: do 2 eexists; split; [eassumption |]; repeat (split; [reflexivity |]).
  all: intros pod;
    edestruct (onEvent_step pod) as (res & r'' & tr' & E & _);
    [| | do 3 eexists; exact E]; reflexivity.
Qed.

Lemma Run_starts_session_witness :
  let w := world_of (inl {| config_id := 0 |}) None in
  let r := command_of "app" true in
  watchLock r = false
  /\ pw_Start ∈ (Run w (fresh_params, r)).2
  /\ buildRunName (Run w (fresh_params, r)).1.2.2 = "app-x7k2p"
  /\ exists c created,
       BuildRuns_Create c "default" (request_of w r) = (created, None)
       /\ buildv1alpha1.GetName created = "app-x7k2p".
Proof.
  intros w r.
  assert (Hin : pw_Start ∈ (Run w (fresh_params, r)).2).
  { apply list_elem_of_In. vm_compute. tauto. }
  split; [reflexivity |]. split; [exact Hin |]. split; [reflexivity |].
  destruct (Run_starts_session w fresh_params
              (Run w (fresh_params, r)).1.2.1 r (Run w (fresh_params, r)).1.2.2
              None (Run w (fresh_params, r)).2 eq_refl eq_refl Hin)
    as (c & created & Hc & _ & _ & _ & _ & Hname & _).
  exists c, created. split; [exact Hc |]. now rewrite <- Hname.
Defined.

Ltac normalise_pointers :=
  repeat match goal with
         | E : pointer _ = pointer _ |- _ => injection E as E; try subst
         end.

(** X21: with follow off, [Run] builds no watcher and starts no watch,
    never asks for the Kubernetes clientset, and stores nothing in the
    command, not even the created run's name: the command is the one it was
    given, with the mutex held.  When it returns nil, the clientset cached
    in the params has created the run from the request of lines 153-159,
    and [Run] has written one line after the request; when the created
    run's name and the build's name are plain printable ASCII, the line is
    "BuildRun created", the run's name between double quotes, "for build",
    the build's name between double quotes, and a newline. *)
Theorem Run_without_follow (w : World) (p p' : params.Params) (r r' : RunCommand)
    (o : outcome (option error)) (tr : list effect) :
  watchLock r = false ->
  follow r = false ->
  Run w (p, r) = (o, (p', r'), tr) ->
  r' = set_watchLock true r
  /\ params.clientset p' = params.clientset p
  /\ (pw_Start ∉ tr)
  /\ (forall listOpts ns, NewPodWatcher listOpts ns ∉ tr)
  /\ (o = Returned None ->
      exists c created line,
        params.shpClientset p' = pointer (Some c)
        /\ BuildRuns_Create c (params.Namespace p) (request_of w r) = (created, None)
        /\ tr = [Create_BuildRun (params.Namespace p) (request_of w r); Out line]
        /\ (plain_text (buildv1alpha1.GetName created) = true ->
            plain_text (buildName r) = true ->
            line = "BuildRun created " +:+ DQUOTE +:+ buildv1alpha1.GetName created
                     +:+ DQUOTE +:+ " for build " +:+ DQUOTE +:+ buildName r
                     +:+ DQUOTE +:+ LF)).
Proof.
  intros Hlock Hf H. run_cases H. rewrite Hlock in H. simpl in H.
  repeat world_case H.
  all: try congruence.
  all: injection H as <- <- <- <-.
  all: normalise_pointers.
  all: unfold request_of, params.Namespace.
  all: split; [reflexivity |]; split; [reflexivity |].
  all: split; [not_started |].
  all: split; [intros listOpts ns; not_started |].
  all: intros Ho; try discriminate Ho.
  all: do 3 eexists; split; [first [eassumption | reflexivity] |];
    split; [eassumption |]; split; [reflexivity |].
  all: intros Hcreated Hbuild;
    rewrite (Quote_plain _ Hcreated), (Quote_plain _ Hbuild);
    now rewrite !append_assoc.
Qed.

Lemma Run_without_follow_witness :
  let w := world_of (inl {| config_id := 0 |}) None in
  let r := command_of "app" false in
  watchLock r = false
  /\ follow r = false
  /\ (Run w (fresh_params, r)).1.2.2 = set_watchLock true r
  /\ (Run w (fresh_params, r)).2
     = [Create_BuildRun "default" (request_of w r);
        Out ("BuildRun created " +:+ DQUOTE +:+ "app-x7k2p" +:+ DQUOTE
               +:+ " for build " +:+ DQUOTE +:+ "app" +:+ DQUOTE +:+ LF)].
Proof.
  intros w r. split; [reflexivity |]. split; [reflexivity |].
  split; [| reflexivity].
  exact (proj1 (Run_without_follow w fresh_params
                  (Run w (fresh_params, r)).1.2.1 r (Run w (fresh_params, r)).1.2.2
                  (Run w (fresh_params, r)).1.1 (Run w (fresh_params, r)).2
                  eq_refl eq_refl eq_refl)).
Defined.

(** X22: however [Run] ends, it has made at most one create request, and
    that request is the one of lines 153-159: no name, the generated-name
    prefix made of the build's name and a dash, the sanitized spec of the
    command, in the namespace of the params. *)
Theorem Run_requests (w : World) (p : params.Params) (r : RunCommand) :
  requests (Run w (p, r)).2 = []
  \/ requests (Run w (p, r)).2 = [(params.Namespace p, request_of w r)].
Proof.
  destruct (watchLock r) eqn:Hlock.
  { rewrite Run_locked by exact Hlock. now left. }
  destruct (Run w (p, r)) as [[o [p' r']] tr] eqn:H. simpl.
  run_cases H. rewrite Hlock in H. simpl in H.
  repeat world_case H.
  all: injection H as <- <- <- <-.
  all: first [left; reflexivity | right; reflexivity].
Qed.

(** X23: a params whose Shipwright clientset field holds a nil pointer
    makes [Run] panic at the create call of line 165, before any request,
    with the mutex held. *)
Theorem Run_nil_pointer_clientset (w : World) (p : params.Params) (r : RunCommand) :
  watchLock r = false ->
  params.shpClientset p = pointer None ->
  Run w (p, r) = (Panicked, (p, set_watchLock true r), []).
Proof.
  intros Hlock Hp. unfold Run, params.ShipwrightClientSet.
  unfold bind, on_self, on_params, Lock, get, ret, deref, panic.
  rewrite Hlock. simpl. rewrite Hp. reflexivity.
Qed.

Lemma Run_nil_pointer_clientset_witness :
  let w := world_of (inl {| config_id := 0 |}) None in
  let p := params.set_shpClientset (pointer None) fresh_params in
  let r := command_of "app" true in
  watchLock r = false
  /\ params.shpClientset p = pointer None
  /\ Run w (p, r) = (Panicked, (p, set_watchLock true r), []).
Proof.
  intros w p r. split; [reflexivity |]. split; [reflexivity |].
  exact (Run_nil_pointer_clientset w p r eq_refl eq_refl).
Defined.

(** X24: however [Run] ends, the build's name and the follow flag of the
    command and the namespace of the params are as they were: the run is
    created in the namespace the params already held.  The registry of
    started tails is as it was whenever [Run] ends without having started
    the watch. *)
Theorem Run_frame (w : World) (p : params.Params) (r : RunCommand) :
  buildName (Run w (p, r)).1.2.2 = buildName r
  /\ follow (Run w (p, r)).1.2.2 = follow r
  /\ params.namespace (Run w (p, r)).1.2.1 = params.namespace p
  /\ ((pw_Start ∉ (Run w (p, r)).2) ->
      tailLogsStarted (Run w (p, r)).1.2.2 = tailLogsStarted r).
Proof.
  destruct (watchLock r) eqn:Hlock.
  { rewrite Run_locked by exact Hlock. repeat split. }
  destruct (Run w (p, r)) as [[o [p' r']] tr] eqn:H. simpl.
  run_cases H. rewrite Hlock in H. simpl in H.
  repeat world_case H.
  all: injection H as <- <- <- <-.
  all: repeat split; try assumption; try (symmetry; assumption).
Qed.

(** X25: with a Kubernetes clientset cached in the params, as a [Complete]
    that returned nil leaves it, an error that [Run] returns with the create
    request as its only effect is the error that the clientset cached in
    the params returned for that request: the return of line 178 is not
    taken. *)
Theorem Run_after_Complete (w : World) (p p' : params.Params) (r r' : RunCommand)
    (err : error) (ns : string) (br : buildv1alpha1.BuildRun) :
  watchLock r = false ->
  not_nil (params.clientset p) = true ->
  Run w (p, r) = (Returned (Some err), (p', r'), [Create_BuildRun ns br]) ->
  ns = params.Namespace p
  /\ br = request_of w r
  /\ exists c created,
       params.shpClientset p' = pointer (Some c)
       /\ BuildRuns_Create c ns br = (created, Some err).
Proof.
  intros Hlock Hcached H.
  destruct (params.clientset p) as [|kube] eqn:Hkube; [discriminate |].
  run_cases H. rewrite Hlock in H. simpl in H.
  repeat world_case H.
  all: try congruence.
  all: simplify_eq.
  all: unfold request_of, params.Namespace.
  all: split; [reflexivity |]; split; [reflexivity |].
  all: do 2 eexists; split; [first [eassumption | reflexivity] | eassumption].
Qed.

Lemma Run_after_Complete_witness :
  let failing :=
    {| BuildRuns_Get := fun _ _ => (buildrun_of "" None None, None);
       BuildRuns_Create := fun _ b => (b, Some (errorString "builds.shipwright.io not found")) |} in
  let w := world_of (inl {| config_id := 0 |}) None in
  let p := {| params.clientset := pointer (Some {| kube_id := 0 |});
              params.shpClientset := pointer (Some failing);
              params.namespace := "default" |} in
  let r := command_of "app" true in
  watchLock r = false
  /\ not_nil (params.clientset p) = true
  /\ Run w (p, r)
     = (Returned (Some (errorString "builds.shipwright.io not found")),
        (p, set_watchLock true r), [Create_BuildRun "default" (request_of w r)])
  /\ exists c created,
       params.shpClientset p = pointer (Some c)
       /\ BuildRuns_Create c "default" (request_of w r)
          = (created, Some (errorString "builds.shipwright.io not found")).
Proof.
  intros failing w p r. split; [reflexivity |]. split; [reflexivity |].
  split; [reflexivity |].
  exact (proj2 (proj2 (Run_after_Complete w p p r (set_watchLock true r)
           (errorString "builds.shipwright.io not found") "default" (request_of w r)
           eq_refl eq_refl eq_refl))).
Defined.
